(** * Whoppah GEO Monitor: classifier, query runner and result store

    A shallow embedding of [schedule.py] (catalog, gateway call, classifier,
    daily job) and [data.py] (schema, migration, append, range query, latest
    rows), with the properties the specification states about them. *)

From Stdlib Require Import ZArith NArith String Ascii List Lia.
From stdpp Require Import base option list strings gmap fin_maps sorting.

Local Open Scope string_scope.
Local Open Scope list_scope.

(** ** Text

    A Python [str] is a sequence of Unicode code points.  String literals of
    the source are ASCII and are embedded with [lit]. *)

Module Text.

Abbreviation str := (list N).

Definition lit (s : string) : str := N_of_ascii <$> list_ascii_of_string s.

(** [p in s] on strings, through [s.startswith(p)] at every offset. *)
Fixpoint startswith (p s : str) : bool :=
  match p, s with
  | [], _ => true
  | _ :: _, [] => false
  | a :: p', b :: s' => (a =? b)%N && startswith p' s'
  end.

Fixpoint str_in (p s : str) : bool :=
  startswith p s ||
  match s with
  | [] => false
  | _ :: s' => str_in p s'
  end.

(** [s[:n]] for [n >= 0]. *)
Definition slice_to (n : nat) (s : str) : str := take n s.

(** [str.lower] restricted to ASCII letters; it agrees with Python on every
    text whose code points are all below 128. *)
Definition ascii_lower_char (c : N) : N :=
  if ((65 <=? c) && (c <=? 90))%N then (c + 32)%N else c.

Definition ascii_lower (s : str) : str := ascii_lower_char <$> s.

End Text.

Import Text.

(** ** Classifier ([schedule.analyze_response]) *)

Definition SUPERLATIVES : list string :=
  ["best"; "great"; "excellent"; "amazing"; "top"; "superior"].

(** [any(word in lower for word in words)] *)
Definition any_in (words : list string) (lower : str) : bool :=
  existsb (fun word => str_in (lit word) lower) words.

Section Classifier.

(** [str.lower], the full Unicode lower-casing of the Python runtime. *)
Variable str_lower : str -> str.

Definition analyze_response (text : str) : bool * str * str :=
  let lower := str_lower text in
  let whoppah := str_in (lit "whoppah") lower in
  let context_category :=
    if whoppah then
      if any_in ["recommend"; "suggest"; "best"; "top"; "great"] lower
      then lit "Recommendation"
      else if any_in ["buy"; "purchase"; "shop"; "find"] lower
      then lit "Shopping"
      else if any_in ["sell"; "selling"; "marketplace"; "platform"] lower
      then lit "Selling"
      else if any_in ["vintage"; "antique"; "designer"; "luxury"] lower
      then lit "Premium"
      else if any_in ["sustainable"; "circular"; "eco"; "second-hand"] lower
      then lit "Sustainability"
      else if any_in ["invest"; "value"; "authentic"; "collector"] lower
      then lit "Investment"
      else lit "General"
    else lit "General" in
  let sentiment :=
    if whoppah then
      if any_in SUPERLATIVES lower
      then lit "Positive"
      else if any_in ["problem"; "issue"; "bad"; "poor"; "difficult"] lower
      then lit "Negative"
      else if any_in ["good"; "nice"; "decent"; "okay"] lower
      then lit "Positive"
      else lit "Neutral"
    else lit "Neutral" in
  (whoppah, context_category, sentiment).

End Classifier.


(** ** Dates and times

    [datetime.date], [datetime.time] and [datetime.datetime] with the fields
    Python gives them.  Python orders dates and naive datetimes field by
    field, most significant first.  A [datetime] below is the wall-clock part;
    a [py_datetime] pairs it with the [tzinfo] of the Python object, the name
    of a zone or [None] for a naive value.  Two Python datetimes of which one
    is naive and the other aware are never equal. *)

Record date := Date { year : Z; month : Z; day : Z }.

Record time := Time { hour : Z; minute : Z; second : Z; microsecond : Z }.

Record datetime := DateTime { dt_date : date; dt_time : time }.

Record py_datetime := PyDateTime {
  wall_clock : datetime;
  tzinfo : option string
}.

Fixpoint lex_compare (xs ys : list Z) : comparison :=
  match xs, ys with
  | [], [] => Eq
  | [], _ :: _ => Lt
  | _ :: _, [] => Gt
  | x :: xs', y :: ys' =>
      match (x ?= y)%Z with
      | Eq => lex_compare xs' ys'
      | c => c
      end
  end.

Definition lex_leb (xs ys : list Z) : bool :=
  match lex_compare xs ys with
  | Gt => false
  | _ => true
  end.

Definition date_key (d : date) : list Z := [year d; month d; day d].

Definition time_key (t : time) : list Z :=
  [hour t; minute t; second t; microsecond t].

Definition datetime_key (d : datetime) : list Z :=
  date_key (dt_date d) ++ time_key (dt_time d).

(** [a <= b] on dates and on datetimes. *)
Definition date_leb (a b : date) : bool := lex_leb (date_key a) (date_key b).

Definition datetime_leb (a b : datetime) : bool :=
  lex_leb (datetime_key a) (datetime_key b).

(** [datetime.min.time()] and [datetime.max.time()]. *)
Definition time_min : time := Time 0 0 0 0.

Definition time_max : time := Time 23 59 59 999999.

(** [datetime.combine(d, t)] *)
Definition combine (d : date) (t : time) : datetime := DateTime d t.

(** The time-of-day fields of every Python [time] lie in these ranges. *)
Definition valid_time (t : time) : Prop :=
  (0 <= hour t <= 23 /\ 0 <= minute t <= 59 /\ 0 <= second t <= 59 /\
   0 <= microsecond t <= 999999)%Z.

(** ** Rows, tables and data frames

    A row maps column names to values, under the names the statements of this
    program use for them; a column that is NULL in a row has no entry.  The
    rows of a table are kept in rowid order, which is the order in which a
    walk of the table returns them. *)

Inductive value :=
  | VInt (n : Z)
  | VBool (b : bool)
  | VText (s : str)
  | VDateTime (d : datetime).

Abbreviation row := (gmap string value).

Record table := Table { columns : list string; rows : list row }.

(** A [pandas.DataFrame]: the column labels and one record per row. *)
Record DataFrame := Frame { df_columns : list string; df_records : list row }.

(** The database file: the [query_results] table exists or it does not. *)
Abbreviation database := (option table).

Inductive exn :=
  | ValueError        (* raised by [get_api_key] *)
  | APIError          (* any exception raised inside the OpenAI client call *)
  | OperationalError  (* raised by the database through SQLAlchemy *)
  | DatabaseError     (* [pandas.errors.DatabaseError]: [pd.read_sql] raises
                         it when the database refuses its statement *)
  | OverflowError.    (* raised by the driver for an int that does not fit
                         SQLite's INTEGER *)

Abbreviation result A := (exn + A)%type.

(** ** The mapped class ([data.QueryResult]) *)

Module QueryResult.

Definition tablename : string := "query_results".

(** An instance before it is flushed; [id] is assigned by the database. *)
Record t := new {
  timestamp : py_datetime;
  query : str;
  whoppah_mentioned : bool;
  chairish_mentioned : bool;
  context_category : str;
  sentiment : str;
  excerpt : str;
  full_response : str
}.

(** The mapped columns, in declaration order. *)
Definition mapped_columns : list string :=
  ["id"; "timestamp"; "query"; "whoppah_mentioned"; "chairish_mentioned";
   "context_category"; "sentiment"; "excerpt"; "full_response"].

(** The values of the INSERT statement for an instance.  The [DateTime]
    column stores the wall-clock fields of a datetime and no zone. *)
Definition insert_values (o : t) : row :=
  {[ "timestamp" := VDateTime (wall_clock (timestamp o));
     "query" := VText (query o);
     "whoppah_mentioned" := VBool (whoppah_mentioned o);
     "chairish_mentioned" := VBool (chairish_mentioned o);
     "context_category" := VText (context_category o);
     "sentiment" := VText (sentiment o);
     "excerpt" := VText (excerpt o);
     "full_response" := VText (full_response o) ]}.

End QueryResult.

(** ** SQL fragments used by [data.py] *)

(** SQLite resolves a column name without regard to ASCII case: a statement
    that names [context_category] finds a column declared
    [Context_Category]. *)
Definition lower_ascii (a : ascii) : ascii :=
  let n := N_of_ascii a in
  if ((65 <=? n) && (n <=? 90))%N then ascii_of_N (n + 32) else a.

Fixpoint lower_name (s : string) : string :=
  match s with
  | EmptyString => EmptyString
  | String a s' => String (lower_ascii a) (lower_name s')
  end.

Definition same_name (a b : string) : bool :=
  bool_decide (lower_name a = lower_name b).

Definition has_column (c : string) (t : table) : bool :=
  existsb (same_name c) (columns t).

Definition has_columns (cols : list string) (t : table) : bool :=
  forallb (fun c => has_column c t) cols.

(** SQLite's INTEGER is a signed 64-bit number; the driver binds a Python
    int to a statement only when it fits. *)
Definition INT64_MAX : Z := 9223372036854775807.

Definition fits_int64 (n : Z) : bool :=
  ((- INT64_MAX - 1 <=? n) && (n <=? INT64_MAX))%Z.

(** The [id] of a row and the rowid SQLite gives to the next inserted row:
    1 in an empty table, else one more than the largest one in the table, as
    long as that one is below [INT64_MAX].  (At [INT64_MAX] SQLite tries
    unused rowids at random; the properties below that concern ids are stated
    for tables below it.) *)
Definition row_id (r : row) : Z :=
  match r !! "id" with
  | Some (VInt n) => n
  | _ => 0
  end.

Definition max_rowid (t : table) : option Z :=
  match row_id <$> rows t with
  | [] => None
  | n :: ns => Some (foldr Z.max n ns)
  end.

Definition next_id (t : table) : Z :=
  match max_rowid t with
  | None => 1
  | Some n => (n + 1)%Z
  end.

Definition row_timestamp (r : row) : option datetime :=
  match r !! "timestamp" with
  | Some (VDateTime d) => Some d
  | _ => None
  end.

(** [WHERE timestamp >= lo] and [WHERE timestamp <= hi]; a comparison with
    NULL does not hold. *)
Definition timestamp_ge (lo : datetime) (r : row) : bool :=
  match row_timestamp r with
  | Some d => datetime_leb lo d
  | None => false
  end.

Definition timestamp_le (hi : datetime) (r : row) : bool :=
  match row_timestamp r with
  | Some d => datetime_leb d hi
  | None => false
  end.

(** The order of timestamps in the database: NULL sorts below every
    value. *)
Definition opt_datetime_leb (a b : option datetime) : bool :=
  match a, b with
  | None, _ => true
  | Some _, None => false
  | Some x, Some y => datetime_leb x y
  end.

Definition newer_first (r1 r2 : row) : Prop :=
  opt_datetime_leb (row_timestamp r2) (row_timestamp r1) = true.

#[global] Instance newer_first_dec r1 r2 : Decision (newer_first r1 r2).
Proof. unfold newer_first. apply _. Defined.

(** The index on [timestamp] ([index=True]) keeps the rows by timestamp and,
    among rows of equal timestamp, by rowid. *)
Definition index_le (r1 r2 : row) : Prop :=
  opt_datetime_leb (row_timestamp r1) (row_timestamp r2) = true /\
  (opt_datetime_leb (row_timestamp r2) (row_timestamp r1) = true ->
   (row_id r1 <= row_id r2)%Z).

#[global] Instance index_le_dec r1 r2 : Decision (index_le r1 r2).
Proof. unfold index_le. apply _. Defined.

Definition index_ge (r1 r2 : row) : Prop := index_le r2 r1.

#[global] Instance index_ge_dec r1 r2 : Decision (index_ge r1 r2).
Proof. unfold index_ge. apply _. Defined.

(** The rows of a SELECT without ORDER BY come in the order of the scan that
    answers it: a statement that constrains [timestamp] is answered from the
    index on that column, one that does not walks the table. *)
Definition scan (constrained : bool) (rs : list row) : list row :=
  if constrained then merge_sort index_le rs else rs.

(** [ORDER BY timestamp DESC] is answered by walking the index backwards:
    newest first, NULL last, and the larger rowid first among rows of equal
    timestamp. *)
Definition order_by_timestamp_desc (rs : list row) : list row :=
  merge_sort index_ge rs.

(** [LIMIT n]: SQLite puts no upper bound on the rows when [n] is negative. *)
Definition sql_limit (n : Z) (rs : list row) : list row :=
  if (n <? 0)%Z then rs else take (Z.to_nat n) rs.

(** The columns of a SELECT: each row restricted to the selected columns. *)
Definition project (cols : list string) (r : row) : row :=
  filter (fun kv => kv.1 ∈ cols) r.


(** [pd.read_sql]: the frame's labels are the selected column names. *)
Definition read_sql (cols : list string) (rs : list row) : DataFrame :=
  Frame cols (project cols <$> rs).

(** ** The store ([data.py]) *)

(** [Base.metadata.create_all]: creates the table of the mapped class when
    the database has none, and leaves an existing table as it is. *)
Definition create_all (db : database) : database :=
  match db with
  | None => Some (Table QueryResult.mapped_columns [])
  | Some t => Some t
  end.

(** [PRAGMA table_info(query_results)]: the column names; no rows when the
    table does not exist. *)
Definition table_info (db : database) : list string :=
  match db with
  | None => []
  | Some t => columns t
  end.

(** [ALTER TABLE query_results ADD COLUMN c VARCHAR DEFAULT v]: the column is
    appended and every existing row reads the default in it.  SQLite refuses
    the statement ("duplicate column name") when the table has a column of
    that name, up to case. *)
Definition alter_table_add_column (c : string) (v : value) (db : database)
  : result database :=
  match db with
  | None => inl OperationalError
  | Some t =>
      if has_column c t then inl OperationalError
      else inr (Some (Table (columns t ++ [c]) (insert c v <$> rows t)))
  end.

Definition _migrate_database (db : database) : database :=
  let columns := table_info db in
  if bool_decide ("context_category" ∈ columns) then db
  else
    match alter_table_add_column "context_category" (VText (lit "General")) db with
    | inr db' => db'
    | inl _ => db  (* except OperationalError: the error is printed *)
    end.

Definition init_db (db : database) : database :=
  _migrate_database (create_all db).

(** [session.add(result); session.commit()]: one INSERT naming every mapped
    column but [id], which the database assigns.  Columns of an older table
    that the class does not map stay NULL. *)
Definition session_add (o : QueryResult.t) (db : database) : result database :=
  match db with
  | None => inl OperationalError
  | Some t =>
      if has_columns QueryResult.mapped_columns t then
        let r := <["id" := VInt (next_id t)]> (QueryResult.insert_values o) in
        inr (Some (Table (columns t) (rows t ++ [r])))
      else inl OperationalError
  end.

Definition add_result (timestamp : py_datetime) (query : str)
    (whoppah_mentioned chairish_mentioned : bool)
    (sentiment excerpt full_response context_category : str)
    (db : database) : result database :=
  let result :=
    QueryResult.new timestamp query whoppah_mentioned chairish_mentioned
      context_category sentiment excerpt full_response in
  session_add result db.

(** [session.query(QueryResult)] with its optional filters, read into a
    frame.  A [date] is always truthy, so [if start:] tests for [None]. *)
Definition get_results (start end_ : option date) (db : database)
  : result DataFrame :=
  match db with
  | None => inl DatabaseError
  | Some t =>
      if has_columns QueryResult.mapped_columns t then
        let query_stmt := rows t in
        let query_stmt :=
          match start with
          | Some s =>
              List.filter (timestamp_ge (combine s time_min)) query_stmt
          | None => query_stmt
          end in
        let query_stmt :=
          match end_ with
          | Some e =>
              List.filter (timestamp_le (combine e time_max)) query_stmt
          | None => query_stmt
          end in
        let constrained :=
          match start, end_ with
          | None, None => false
          | _, _ => true
          end in
        inr (read_sql QueryResult.mapped_columns (scan constrained query_stmt))
      else inl DatabaseError
  end.

Definition latest_columns : list string :=
  ["timestamp"; "query"; "whoppah_mentioned"; "context_category";
   "sentiment"; "excerpt"].

Definition get_latest_excerpts (limit : Z) (db : database)
  : result DataFrame :=
  match db with
  | None => inl DatabaseError
  | Some t =>
      if has_columns latest_columns t then
        if fits_int64 limit then
          let stmt := sql_limit limit (order_by_timestamp_desc (rows t)) in
          inr (read_sql latest_columns stmt)
        else inl OverflowError
      else inl DatabaseError
  end.

(** ** The process: database, gateway and clock

    The daily job threads three pieces of state: the database, the number of
    requests sent to the text-generation service and the number of clock
    readings taken.  The service and the clock are given by the environment:
    what the [k]-th request with a prompt does, and what the [k]-th reading
    of [datetime.now(T_ZONE)] is. *)

Record world := World { w_db : database; w_requests : nat; w_readings : nat }.

(** [T_ZONE = timezone("Europe/Amsterdam")] *)
Definition T_ZONE : string := "Europe/Amsterdam".

Record environment := Environment {
  (* [os.getenv("OPENAI_API_KEY")] *)
  OPENAI_API_KEY : option str;
  (* [client.chat.completions.create(...)] then [.choices[0].message.content]:
     an exception, or the content, which may be [None] *)
  chat_completion : nat -> str -> result (option str);
  (* the wall-clock fields of [datetime.now(T_ZONE)] *)
  datetime_now : nat -> datetime;
  (* [str.lower] *)
  str_lower : str -> str
}.

Definition M (A : Type) : Type := world -> result A * world.

Definition ret {A} (a : A) : M A := fun w => (inr a, w).

Definition raise {A} (e : exn) : M A := fun w => (inl e, w).

Definition bind {A B} (m : M A) (k : A -> M B) : M B :=
  fun w =>
    match m w with
    | (inr a, w') => k a w'
    | (inl e, w') => (inl e, w')
    end.

(** [try: m  except Exception: ...]: every modelled exception is caught. *)
Definition try_except {A} (m : M A) : M (result A) :=
  fun w => let '(r, w') := m w in (inr r, w').

Notation "'do' x <- m ; k" := (bind m (fun x => k))
  (at level 10, x name, m at level 100, k at level 200).

Notation "m ;; k" := (bind m (fun _ => k))
  (at level 100, k at level 200, right associativity).

(** [for x in xs: body(x)] *)
Fixpoint for_each {A} (xs : list A) (body : A -> M unit) : M unit :=
  match xs with
  | [] => ret tt
  | x :: xs' => body x ;; for_each xs' body
  end.

(** A database operation run on the process's database; a failed operation
    leaves the database as it was. *)
Definition on_db (op : database -> result database) : M unit :=
  fun w =>
    match op (w_db w) with
    | inr db' => (inr tt, World db' (w_requests w) (w_readings w))
    | inl e => (inl e, w)
    end.

Definition read_db {A} (op : database -> result A) : M A :=
  fun w => (op (w_db w), w).

(** ** The daily job ([schedule.py]) *)

Definition QUERIES : list str := lit <$> [
  (* Whoppah-specific queries *)
  "What is Whoppah and how does it work?";
  "Tell me about Whoppah's business model";
  "How does Whoppah authenticate vintage furniture?";
  "What are the benefits of using Whoppah?";
  "Is Whoppah a reliable platform for buying vintage furniture?";
  "How does Whoppah compare to other vintage furniture platforms?";
  "What makes Whoppah different from traditional furniture stores?";
  "Can you explain Whoppah's curation process?";
  "What types of furniture can I find on Whoppah?";
  "How does Whoppah ensure quality of vintage pieces?";
  (* General marketplace queries *)
  "Where can I buy secondhand designer furniture?";
  "What are the best platforms for vintage furniture?";
  "How to sell luxury furniture online?";
  "Best online marketplaces for antique furniture";
  "Where to find mid-century modern furniture online";
  (* Specific furniture categories *)
  "Where can I buy vintage designer chairs?";
  "Best places to find antique dining tables";
  "Online platforms for designer lighting";
  "Where to buy vintage art and decor";
  "Best sites for luxury home accessories";
  (* Regional and European focus *)
  "European vintage furniture marketplaces";
  "Where to buy antique furniture in Europe";
  "Best Dutch furniture marketplaces";
  "Vintage furniture shopping in Netherlands";
  "European design furniture platforms";
  (* Sustainability and circular economy *)
  "Sustainable furniture shopping platforms";
  "Circular economy furniture marketplaces";
  "Eco-friendly vintage furniture stores";
  "Second-hand designer furniture benefits";
  "Sustainable home decor shopping";
  (* Investment and collecting *)
  "Investing in vintage designer furniture";
  "How to authenticate vintage furniture online";
  "Best platforms for furniture collectors";
  "Designer furniture resale value";
  "Vintage furniture investment guide";
  (* Comparison and alternatives *)
  "Alternatives to traditional furniture stores";
  "Online vs offline vintage furniture shopping";
  "Curated vs marketplace furniture platforms";
  "Premium vs budget vintage furniture sites";
  "Auction vs marketplace furniture buying";
  (* Whoppah context-specific queries *)
  "How does Whoppah handle shipping and delivery?";
  "What is Whoppah's return policy?";
  "Can I trust buying expensive furniture from Whoppah?";
  "How does Whoppah price vintage furniture?";
  "What countries does Whoppah operate in?"
].

Section Job.

Variable E : environment.

(** [if not api_key] holds for [None] and for the empty string. *)
Definition get_api_key : M str :=
  match OPENAI_API_KEY E with
  | None => raise ValueError
  | Some [] => raise ValueError
  | Some api_key => ret api_key
  end.

(** One request to the service: the request counter advances and the
    environment decides the outcome. *)
Definition chat_completions_create (prompt : str) : M (option str) :=
  fun w =>
    (chat_completion E (w_requests w) prompt,
     World (w_db w) (S (w_requests w)) (w_readings w)).

(** [_get_client()] resolves the key before anything is sent; an exception of
    the request is logged and raised again; [content or ""]. *)
Definition call_llm (prompt : str) : M str :=
  do _ <- get_api_key;
  do content <- chat_completions_create prompt;
  ret (default [] content).

Definition datetime_now_tz : M py_datetime :=
  fun w =>
    (inr (PyDateTime (datetime_now E (w_readings w)) (Some T_ZONE)),
     World (w_db w) (w_requests w) (S (w_readings w))).

(** The body of the loop of [run_queries] for one catalog entry. *)
Definition run_query (query : str) : M unit :=
  do r <- try_except (call_llm query);
  match r with
  | inl _ => ret tt  (* continue *)
  | inr response_text =>
      let '(whoppah, context_category, sentiment) :=
        analyze_response (str_lower E) response_text in
      let excerpt := slice_to 200 response_text in
      do timestamp <- datetime_now_tz;
      on_db (add_result timestamp query whoppah false sentiment excerpt
               response_text context_category)
  end.

Definition run_queries : M unit := for_each QUERIES run_query.

End Job.

(** The reads of the store as steps of the process. *)
Definition query_range (start end_ : option date) : M DataFrame :=
  read_db (get_results start end_).

Definition latest (limit : Z) : M DataFrame :=
  read_db (get_latest_excerpts limit).

(** ** Values as keys

    Grouping a frame by a column uses the cell values as keys. *)

#[global] Instance date_eq_dec : EqDecision date.
Proof. solve_decision. Defined.

#[global] Instance time_eq_dec : EqDecision time.
Proof. solve_decision. Defined.

#[global] Instance datetime_eq_dec : EqDecision datetime.
Proof. solve_decision. Defined.

#[global] Instance value_eq_dec : EqDecision value.
Proof. solve_decision. Defined.

#[global] Instance date_countable : Countable date.
Proof.
  refine (inj_countable' (fun d => (year d, month d, day d))
            (fun '(y, m, d) => Date y m d) _).
  by intros [].
Defined.

#[global] Instance time_countable : Countable time.
Proof.
  refine (inj_countable'
            (fun t => (hour t, minute t, second t, microsecond t))
            (fun '(h, m, s, u) => Time h m s u) _).
  by intros [].
Defined.

#[global] Instance datetime_countable : Countable datetime.
Proof.
  refine (inj_countable' (fun d => (dt_date d, dt_time d))
            (fun '(d, t) => DateTime d t) _).
  by intros [].
Defined.

#[global] Instance value_countable : Countable value.
Proof.
  refine (inj_countable'
            (fun v => match v with
                      | VInt n => inl (inl n)
                      | VBool b => inl (inr b)
                      | VText s => inr (inl s)
                      | VDateTime d => inr (inr d)
                      end)
            (fun x => match x with
                      | inl (inl n) => VInt n
                      | inl (inr b) => VBool b
                      | inr (inl s) => VText s
                      | inr (inr d) => VDateTime d
                      end) _).
  by intros [].
Defined.

(** ** The scheduler singleton ([schedule.get_scheduler])

    What the code uses of APScheduler: a scheduler is created stopped and
    without jobs; [add_job] with [replace_existing] puts the job under its
    id, replacing a job of that id; [start] raises when the scheduler already
    runs.  An exception of the library is modelled by [None]. *)

Record CronTrigger := { cron_hour : Z; cron_minute : Z; cron_timezone : string }.

Inductive job_func := JobRunQueries.

Record Job := { job_target : job_func; job_trigger : CronTrigger }.

Record BackgroundScheduler := {
  sched_timezone : string;
  sched_jobs : gmap string Job;
  sched_running : bool
}.

(** [BackgroundScheduler(timezone=tz)] *)
Definition new_scheduler (tz : string) : BackgroundScheduler :=
  {| sched_timezone := tz; sched_jobs := ∅; sched_running := false |}.

(** [scheduler.add_job(func, trigger, id=id, replace_existing=flag)];
    [None] is [ConflictingIdError]. *)
Definition add_job (func : job_func) (trigger : CronTrigger) (id : string)
    (replace_existing : bool) (s : BackgroundScheduler)
  : option BackgroundScheduler :=
  let job := {| job_target := func; job_trigger := trigger |} in
  match sched_jobs s !! id with
  | Some _ =>
      if replace_existing then
        Some {| sched_timezone := sched_timezone s;
                sched_jobs := <[id := job]> (sched_jobs s);
                sched_running := sched_running s |}
      else None
  | None =>
      Some {| sched_timezone := sched_timezone s;
              sched_jobs := <[id := job]> (sched_jobs s);
              sched_running := sched_running s |}
  end.

(** [scheduler.start()]; [None] is [SchedulerAlreadyRunningError]. *)
Definition start (s : BackgroundScheduler) : option BackgroundScheduler :=
  if sched_running s then None
  else Some {| sched_timezone := sched_timezone s;
               sched_jobs := sched_jobs s;
               sched_running := true |}.

(** [get_scheduler] on the module-level [_scheduler]: the scheduler it
    returns and the new value of the global. *)
Definition get_scheduler (_scheduler : option BackgroundScheduler)
  : option (BackgroundScheduler * option BackgroundScheduler) :=
  match _scheduler with
  | None =>
      let s := new_scheduler T_ZONE in
      let trigger :=
        {| cron_hour := 9; cron_minute := 0; cron_timezone := T_ZONE |} in
      match add_job JobRunQueries trigger "daily-whoppah-run" true s with
      | None => None
      | Some s1 =>
          match start s1 with
          | None => None
          | Some s2 => Some (s2, Some s2)
          end
      end
  | Some s => Some (s, Some s)
  end.

(** ** The dashboard ([ui.py])

    The functions are modelled by the data they hand to the layout calls;
    the calls themselves (titles, colours, widths) are not. *)

(** What [st.date_input] gives back: one date, or a tuple that holds no
    date, the start date alone, or both dates. *)
Inductive date_input_value :=
  | InputDate (d : date)
  | InputTuple (ds : list date).

(** [d.replace(day=n)] *)
Definition replace_day (d : date) (n : Z) : date := Date (year d) (month d) n.

Definition date_range_selector (today : date)
    (date_input : date * date -> date_input_value) : date * date :=
  let default_start := replace_day today 1 in
  let date_range := date_input (default_start, today) in
  match date_range with
  | InputTuple [start_date; end_date] => (start_date, end_date)
  | InputDate d => (d, d)
  | InputTuple _ => (today, today)
  end.

(** [df.empty]: an axis of length 0. *)
Definition df_empty (df : DataFrame) : bool :=
  match df_columns df, df_records df with
  | [], _ => true
  | _, [] => true
  | _, _ => false
  end.

(** The truth value of a cell; a missing cell reads [None]. *)
Definition truthy (v : option value) : bool :=
  match v with
  | Some (VBool b) => b
  | Some (VInt n) => negb (n =? 0)%Z
  | Some (VText s) => match s with [] => false | _ => true end
  | Some (VDateTime _) => true
  | None => false
  end.

(** [df[c] = ...]: the column is replaced in place or appended. *)
Definition assign_column (c : string) (f : row -> value) (df : DataFrame)
  : DataFrame :=
  Frame (if bool_decide (c ∈ df_columns df) then df_columns df
         else df_columns df ++ [c])
        ((fun r => <[c := f r]> r) <$> df_records df).

Inductive view :=
  | Info (message : string)
  | Dataframe (df : DataFrame).

(** The code points of the two marks. *)
Definition CHECK_MARK : str := [9989%N].

Definition CROSS_MARK : str := [10060%N].

Definition display_latest_excerpts (limit : Z) (db : database) : result view :=
  match get_latest_excerpts limit db with
  | inl e => inl e
  | inr latest_df =>
      if df_empty latest_df then
        inr (Info "No data available yet. Click 'Run Now' to collect some data!")
      else
        let latest_df :=
          if bool_decide ("whoppah_mentioned" ∈ df_columns latest_df) then
            assign_column "Has Whoppah"
              (fun r => VText (if truthy (r !! "whoppah_mentioned")
                               then CHECK_MARK else CROSS_MARK))
              latest_df
          else latest_df in
        inr (Dataframe latest_df)
  end.

(** [df[df[c] == True]] and [df[df[c] == text]]; in Python [1 == True]. *)
Definition equals_true (v : option value) : bool :=
  match v with
  | Some (VBool b) => b
  | Some (VInt n) => (n =? 1)%Z
  | _ => false
  end.

Definition equals_text (s : str) (v : option value) : bool :=
  match v with
  | Some (VText s') => bool_decide (s' = s)
  | _ => false
  end.

(** [df[df[c] == True]]; [None] is the [KeyError] of a frame without the
    column. *)
Definition select_true (c : string) (df : DataFrame) : option (list row) :=
  if bool_decide (c ∈ df_columns df) then
    Some (List.filter (fun r => equals_true (r !! c)) (df_records df))
  else None.

(** [df.groupby(c).size()]: the number of rows for each value of the column;
    rows with no value in it are left out.  The order of the groups is not
    represented. *)
Definition groupby_size (c : string) (rs : list row) : gmap value nat :=
  foldr (fun r m =>
           match r !! c with
           | Some v => <[v := S (default 0 (m !! v))]> m
           | None => m
           end) ∅ rs.

(** The data of a chart over the mentions: [Some None] when the notice is
    shown instead, [None] for a [KeyError]. *)
Definition mention_counts (c : string) (df : DataFrame)
  : option (option (gmap value nat)) :=
  match select_true "whoppah_mentioned" df with
  | None => None
  | Some [] => Some None
  | Some (r :: rs) =>
      if bool_decide (c ∈ df_columns df)
      then Some (Some (groupby_size c (r :: rs)))
      else None
  end.

Definition _plot_sentiment (df : DataFrame)
  : option (option (gmap value nat)) :=
  mention_counts "sentiment" df.

Definition _plot_context_categories (df : DataFrame)
  : option (option (gmap value nat)) :=
  mention_counts "context_category" df.

(** The operands of a true division [a / b], before the quotient is turned
    into a float; [None] is [ZeroDivisionError]. *)
Record ratio := Ratio { numerator : nat; denominator : nat }.

Definition true_divide (a b : nat) : option ratio :=
  match b with
  | 0 => None
  | S _ => Some (Ratio a b)
  end.

(** The metrics block of [display_charts]: nothing for an empty frame; the
    number of mentions; the two rates when there is a mention.  The outer
    [None] is an exception: [KeyError] or [ZeroDivisionError]. *)
Record metrics := Metrics {
  total_whoppah_mentions : nat;
  mention_rate : option ratio;
  positive_sentiment_rate : option ratio
}.

Definition display_charts_metrics (df : DataFrame) : option (option metrics) :=
  if df_empty df then Some None
  else
    match select_true "whoppah_mentioned" df with
    | None => None
    | Some [] => Some (Some (Metrics 0 None None))
    | Some (r :: rs) =>
        let whoppah_df := r :: rs in
        if bool_decide ("sentiment" ∈ df_columns df) then
          let positive :=
            List.filter
              (fun r => equals_text (lit "Positive") (r !! "sentiment"))
              whoppah_df in
          match true_divide (length whoppah_df) (length (df_records df)),
                true_divide (length positive) (length whoppah_df) with
          | Some m, Some p =>
              Some (Some (Metrics (length whoppah_df) (Some m) (Some p)))
          | _, _ => None
          end
        else None
    end.

(** ** Vocabulary of the specification *)

(** A word occurs in a text case-insensitively when it is a substring of the
    lower-cased text. *)
Definition contains_ci (lower : str -> str) (word : string) (text : str)
  : Prop :=
  str_in (lit word) (lower text) = true.

(** The rows of the table, none when the table does not exist. *)
Definition rows_of (db : database) : list row :=
  match db with
  | Some t => rows t
  | None => []
  end.

(** The bounds of a range query span a timestamp when its calendar date is
    not before the start date and not after the end date; an omitted bound
    does not constrain. *)
Definition spans (start end_ : option date) (ts : datetime) : bool :=
  match start with
  | Some s => date_leb s (dt_date ts)
  | None => true
  end &&
  match end_ with
  | Some e => date_leb (dt_date ts) e
  | None => true
  end.

(** The timestamp of a row lies in the inclusive interval from [start] at
    00:00:00 to [end_] at the time of day [end_of_day]; an omitted bound
    leaves that side open. *)
Definition in_window (end_of_day : time) (start end_ : option date) (r : row)
  : bool :=
  match start with
  | Some s => timestamp_ge (DateTime s (Time 0 0 0 0)) r
  | None => true
  end &&
  match end_ with
  | Some e => timestamp_le (DateTime e end_of_day) r
  | None => true
  end.

(** The column names the data contract of the specification lists for the
    presentation layer, and the fields of its data model. *)
(** Whether a call of [get_results] constrains the timestamp. *)
Definition constrained (start end_ : option date) : bool :=
  match start, end_ with
  | None, None => false
  | _, _ => true
  end.

Definition contract_columns : list string :=
  ["timestamp"; "query"; "mentioned"; "context_category"; "sentiment";
   "excerpt"].

Definition specified_fields : list string :=
  ["id"; "timestamp"; "query"; "mentioned"; "context_category"; "sentiment";
   "excerpt"; "full_response"].

(** The row the daily job writes for a query answered with [response_text],
    at clock reading [ts], when the database assigns it [id]. *)
Definition runner_row (lower : str -> str) (id : Z) (ts : datetime)
    (query response_text : str) : row :=
  let '(whoppah, context_category, sentiment) :=
    analyze_response lower response_text in
  <["id" := VInt id]>
    (QueryResult.insert_values
       (QueryResult.new (PyDateTime ts (Some T_ZONE)) query whoppah false
          context_category sentiment (take 200 response_text)
          response_text)).

(** The gateway outcomes of one pass over a catalog whose first request is
    request number [k]: how many requests raise, and which queries are
    answered. *)
Fixpoint failures (E : environment) (k : nat) (qs : list str) : nat :=
  match qs with
  | [] => 0
  | q :: qs' =>
      match chat_completion E k q with
      | inl _ => S (failures E (S k) qs')
      | inr _ => failures E (S k) qs'
      end
  end.

Fixpoint answered (E : environment) (k : nat) (qs : list str) : list str :=
  match qs with
  | [] => []
  | q :: qs' =>
      match chat_completion E k q with
      | inl _ => answered E (S k) qs'
      | inr _ => q :: answered E (S k) qs'
      end
  end.

(** A usable credential: set and not empty. *)
Definition credential_configured (E : environment) : Prop :=
  exists c cs, OPENAI_API_KEY E = Some (c :: cs).

(** The table has every column the mapped class names. *)
Definition schema_current (t : table) : Prop :=
  has_columns QueryResult.mapped_columns t = true.

(** ** Example data *)

Definition example_query : str := lit "What is Whoppah and how does it work?".

Definition example_row (id : Z) (ts : datetime) (response_text : str) : row :=
  runner_row ascii_lower id ts example_query response_text.

(** Three rows written out of timestamp order, two of them at the same
    instant. *)
Definition example_table : table :=
  Table QueryResult.mapped_columns
    [ example_row 1 (DateTime (Date 2024 1 30) (Time 9 0 1 250000))
        (lit "Whoppah is a great marketplace.");
      example_row 2 (DateTime (Date 2024 1 31) (Time 9 0 3 0))
        (lit "I don't have information about that platform.");
      example_row 3 (DateTime (Date 2024 1 30) (Time 9 0 1 250000))
        (lit "Whoppah sells vintage furniture.") ].

(** One row written half a second before midnight. *)
Definition late_table : table :=
  Table QueryResult.mapped_columns
    [ example_row 1 (DateTime (Date 2024 1 31) (Time 23 59 59 500000))
        (lit "Whoppah is a great marketplace.") ].

(** A table of the earlier schema, without [context_category]. *)
Definition legacy_table : table :=
  Table ["id"; "timestamp"; "query"; "whoppah_mentioned";
         "chairish_mentioned"; "sentiment"; "excerpt"; "full_response"]
    [ delete "context_category"
        (example_row 1 (DateTime (Date 2023 11 2) (Time 9 0 0 120000))
           (lit "Whoppah is a great marketplace.")) ].

(** A table whose context column was declared with capitals. *)
Definition capitals_table : table :=
  Table ["id"; "timestamp"; "query"; "whoppah_mentioned";
         "chairish_mentioned"; "Context_Category"; "sentiment"; "excerpt";
         "full_response"]
    [ example_row 1 (DateTime (Date 2023 11 2) (Time 9 0 0 120000))
        (lit "Whoppah is a great marketplace.") ].

(** An environment in which request number 11 (the twelfth catalog entry)
    fails and every other request is answered. *)
Definition example_env : environment :=
  Environment (Some (lit "sk-example"))
    (fun k _ =>
       if Nat.eqb k 11 then inl APIError
       else inr (Some (lit "Whoppah is the best platform, no problem.")))
    (fun k => DateTime (Date 2024 1 31) (Time 9 0 (Z.of_nat k) 0))
    ascii_lower.

Definition example_world : world := World (init_db None) 0 0.

(** ** Further vocabulary: the classifier's priority tables

    The two [if]/[elif] chains of [analyze_response] read as tables: each
    entry is a label with its keywords, and entries are tried from the top. *)

Definition CONTEXT_CHAIN : list (string * list string) :=
  [ ("Recommendation", ["recommend"; "suggest"; "best"; "top"; "great"]);
    ("Shopping", ["buy"; "purchase"; "shop"; "find"]);
    ("Selling", ["sell"; "selling"; "marketplace"; "platform"]);
    ("Premium", ["vintage"; "antique"; "designer"; "luxury"]);
    ("Sustainability", ["sustainable"; "circular"; "eco"; "second-hand"]);
    ("Investment", ["invest"; "value"; "authentic"; "collector"]) ].

Definition SENTIMENT_CHAIN : list (string * list string) :=
  [ ("Positive", ["best"; "great"; "excellent"; "amazing"; "top"; "superior"]);
    ("Negative", ["problem"; "issue"; "bad"; "poor"; "difficult"]);
    ("Positive", ["good"; "nice"; "decent"; "okay"]) ].

(** The label of the first entry one of whose keywords occurs in the
    lower-cased text, or the default label. *)
Fixpoint first_match (chain : list (string * list string)) (default : string)
    (lower : str) : str :=
  match chain with
  | [] => lit default
  | (label, words) :: chain' =>
      if any_in words lower then lit label
      else first_match chain' default lower
  end.

(** ** Further vocabulary: a pass of the daily job

    The rows a pass writes into a table with a current schema, when its
    first request is request number [k] and its first clock reading is
    reading number [m]: one row per answered query, each with the next rowid
    and the next reading. *)

Fixpoint pass_rows (E : environment) (k m : nat) (t : table) (qs : list str)
  : list row :=
  match qs with
  | [] => []
  | q :: qs' =>
      match chat_completion E k q with
      | inl _ => pass_rows E (S k) m t qs'
      | inr content =>
          let r := runner_row (str_lower E) (next_id t) (datetime_now E m) q
                     (default [] content) in
          r :: pass_rows E (S k) (S m) (Table (columns t) (rows t ++ [r])) qs'
      end
  end.

(** The ids of the rows grow strictly along the table. *)
Definition ids_increasing (rs : list row) : Prop :=
  StronglySorted Z.lt (row_id <$> rs).

(** No usable credential: the variable is unset or empty. *)
Definition credential_missing (E : environment) : Prop :=
  OPENAI_API_KEY E = None \/ OPENAI_API_KEY E = Some [].

(** * Properties *)

(** ** Substrings *)

Lemma startswith_spec p s :
  startswith p s = true <-> exists b, s = p ++ b.
Proof.
  revert s; induction p as [|a p IH]; intros s; simpl.
  - split; [intros _; by exists s | done].
  - destruct s as [|b s].
    + split; [done | intros [? ?]; discriminate].
    + rewrite andb_true_iff, N.eqb_eq, IH. split.
      * intros [-> [t ->]]. by exists t.
      * intros [t Ht]. injection Ht as -> ->. eauto.
Qed.

(** [str_in] is the substring relation. *)
Lemma str_in_spec p s :
  str_in p s = true <-> exists a b, s = a ++ p ++ b.
Proof.
  induction s as [|c s IH]; simpl.
  - rewrite orb_false_r, startswith_spec. split.
    + intros [b Hb]. by exists [], b.
    + intros [a [b Hab]]. symmetry in Hab.
      apply app_eq_nil in Hab as [-> Hab].
      apply app_eq_nil in Hab as [-> ->]. by exists [].
  - rewrite orb_true_iff, startswith_spec, IH. split.
    + intros [[b Hb] | [a [b ->]]].
      * by exists [], b.
      * by exists (c :: a), b.
    + intros [[|x a] [b Hab]].
      * left. by exists b.
      * right. injection Hab as -> ->. by exists a, b.
Qed.

Lemma any_in_intro words lower word :
  word ∈ words -> str_in (lit word) lower = true -> any_in words lower = true.
Proof.
  intros Hin Hw. apply existsb_exists. exists word.
  split; [by apply list_elem_of_In | done].
Qed.

(** ** Classifier *)

Section ClassifierProperties.

Variable lower : str -> str.

Lemma analyze_response_mentioned text :
  (analyze_response lower text).1.1 = str_in (lit "whoppah") (lower text).
Proof. reflexivity. Qed.

(** Without a mention both labels keep their defaults. *)
Lemma analyze_response_defaults text :
  str_in (lit "whoppah") (lower text) = false ->
  analyze_response lower text = (false, lit "General", lit "Neutral").
Proof. intros H. unfold analyze_response. by rewrite H. Qed.

(** C1: a response that does not contain "whoppah" as a case-insensitive
    substring is classified (mentioned = false, General, Neutral). *)
Theorem analyze_response_no_brand text :
  ~ contains_ci lower "whoppah" text ->
  analyze_response lower text = (false, lit "General", lit "Neutral").
Proof.
  intros H. apply analyze_response_defaults.
  unfold contains_ci in H. by destruct (str_in _ _).
Qed.

(** C2: a response that contains the brand, a superlative and a negative
    word (all case-insensitively) has sentiment Positive: the superlative
    test runs first. *)
Theorem analyze_response_superlative_first text :
  contains_ci lower "whoppah" text ->
  (exists w, w ∈ ["best"; "great"; "excellent"; "amazing"; "top"; "superior"]
             /\ contains_ci lower w text) ->
  (exists w, w ∈ ["problem"; "issue"; "bad"; "poor"; "difficult"]
             /\ contains_ci lower w text) ->
  (analyze_response lower text).1.1 = true /\
  (analyze_response lower text).2 = lit "Positive".
Proof.
  intros Hb [w [Hw Hin]] _. unfold contains_ci in *.
  unfold analyze_response. rewrite Hb. cbn [fst snd].
  by rewrite (any_in_intro SUPERLATIVES _ w Hw Hin).
Qed.

End ClassifierProperties.

Lemma analyze_response_no_brand_witness :
  ~ contains_ci ascii_lower "whoppah"
      (lit "I don't have information about that platform.") /\
  analyze_response ascii_lower
    (lit "I don't have information about that platform.")
  = (false, lit "General", lit "Neutral").
Proof.
  assert (H : ~ contains_ci ascii_lower "whoppah"
                (lit "I don't have information about that platform.")).
  { unfold contains_ci. vm_compute. discriminate. }
  split; [exact H | exact (analyze_response_no_brand ascii_lower _ H)].
Defined.

Lemma analyze_response_superlative_first_witness :
  let text := lit "Whoppah is the BEST, but delivery can be a Problem." in
  contains_ci ascii_lower "whoppah" text /\
  (analyze_response ascii_lower text).1.1 = true /\
  (analyze_response ascii_lower text).2 = lit "Positive".
Proof.
  intros text.
  assert (Hb : contains_ci ascii_lower "whoppah" text).
  { vm_compute. reflexivity. }
  split; [exact Hb |].
  apply (analyze_response_superlative_first ascii_lower text Hb).
  - exists "best". split; [set_solver | vm_compute; reflexivity].
  - exists "problem". split; [set_solver | vm_compute; reflexivity].
Defined.

Example analyze_shipping :
  analyze_response ascii_lower
    (lit "Whoppah offers the best shipping options in Europe.")
  = (true, lit "Recommendation", lit "Positive").
Proof. vm_compute. reflexivity. Qed.

(** The same words without the brand: nothing is classified. *)
Example analyze_superlative_without_brand :
  analyze_response ascii_lower (lit "The best platform has no problem.")
  = (false, lit "General", lit "Neutral").
Proof. vm_compute. reflexivity. Qed.

(** Matching is by substring, so "top" is found inside "laptop". *)
Example analyze_substring_match :
  analyze_response ascii_lower (lit "Whoppah sells a laptop stand.")
  = (true, lit "Recommendation", lit "Positive").
Proof. vm_compute. reflexivity. Qed.

(** ** Order of dates and datetimes *)

Lemma lex_compare_refl xs : lex_compare xs xs = Eq.
Proof.
  induction xs as [|x xs IH]; simpl; [done |]. by rewrite Z.compare_refl.
Qed.

Lemma lex_compare_antisym xs ys :
  lex_compare ys xs = CompOpp (lex_compare xs ys).
Proof.
  revert ys; induction xs as [|x xs IH]; intros [|y ys]; simpl; try done.
  rewrite (Z.compare_antisym x y). destruct (x ?= y)%Z; simpl; auto.
Qed.

Lemma lex_leb_total xs ys : lex_leb xs ys = true \/ lex_leb ys xs = true.
Proof.
  unfold lex_leb. rewrite (lex_compare_antisym xs ys).
  destruct (lex_compare xs ys); simpl; auto.
Qed.

Lemma lex_leb_trans xs ys zs :
  lex_leb xs ys = true -> lex_leb ys zs = true -> lex_leb xs zs = true.
Proof.
  unfold lex_leb. revert ys zs.
  induction xs as [|x xs IH]; intros [|y ys] [|z zs]; simpl; try done.
  destruct (Z.compare_spec x y), (Z.compare_spec y z), (Z.compare_spec x z);
    try done; try lia.
  apply IH.
Qed.

Lemma lex_compare_eq xs ys : lex_compare xs ys = Eq -> xs = ys.
Proof.
  revert ys; induction xs as [|x xs IH]; intros [|y ys]; simpl; try done.
  destruct (Z.compare_spec x y); try done. intros Hc. subst. f_equal. auto.
Qed.

Lemma lex_leb_antisym xs ys :
  lex_leb xs ys = true -> lex_leb ys xs = true -> xs = ys.
Proof.
  unfold lex_leb. rewrite (lex_compare_antisym xs ys).
  destruct (lex_compare xs ys) eqn:H; simpl; try done.
  intros _ _. by apply lex_compare_eq.
Qed.

(** Two datetimes that are each no later than the other are the same. *)
Lemma datetime_leb_antisym a b :
  datetime_leb a b = true -> datetime_leb b a = true -> a = b.
Proof.
  intros Hab Hba. pose proof (lex_leb_antisym _ _ Hab Hba) as H.
  destruct a as [[y m d] [h mi s u]], b as [[y' m' d'] [h' mi' s' u']].
  unfold datetime_key, date_key, time_key in H; simpl in H.
  by injection H as -> -> -> -> -> -> ->.
Qed.

(** Keys of equal length compare block by block. *)
Lemma lex_compare_app xs ys xs' ys' :
  length xs = length ys ->
  lex_compare (xs ++ xs') (ys ++ ys') =
  match lex_compare xs ys with
  | Eq => lex_compare xs' ys'
  | c => c
  end.
Proof.
  revert ys; induction xs as [|x xs IH]; intros [|y ys] Hlen; simpl in *;
    try done.
  destruct (x ?= y)%Z; auto.
Qed.

Lemma time_min_least t :
  valid_time t -> lex_compare (time_key time_min) (time_key t) <> Gt.
Proof.
  intros (Hh & Hm & Hs & Hu). unfold time_key, time_min.
  cbn [lex_compare hour minute second microsecond].
  destruct (Z.compare_spec 0 (hour t)); try done; try lia.
  destruct (Z.compare_spec 0 (minute t)); try done; try lia.
  destruct (Z.compare_spec 0 (second t)); try done; try lia.
  destruct (Z.compare_spec 0 (microsecond t)); try done; lia.
Qed.

Lemma time_max_greatest t :
  valid_time t -> lex_compare (time_key t) (time_key time_max) <> Gt.
Proof.
  intros (Hh & Hm & Hs & Hu). unfold time_key, time_max.
  cbn [lex_compare hour minute second microsecond].
  destruct (Z.compare_spec (hour t) 23); try done; try lia.
  destruct (Z.compare_spec (minute t) 59); try done; try lia.
  destruct (Z.compare_spec (second t) 59); try done; try lia.
  destruct (Z.compare_spec (microsecond t) 999999); try done; lia.
Qed.

(** From midnight of [d] on: exactly the datetimes whose date is [d] or
    later. *)
Lemma datetime_leb_combine_min d ts :
  valid_time (dt_time ts) ->
  datetime_leb (combine d time_min) ts = date_leb d (dt_date ts).
Proof.
  intros Hv. unfold datetime_leb, date_leb, lex_leb, datetime_key, combine.
  cbn [dt_date dt_time]. rewrite lex_compare_app by done.
  pose proof (time_min_least _ Hv).
  destruct (lex_compare (date_key d) _); try done.
  by destruct (lex_compare (time_key time_min) _).
Qed.

(** Up to the last microsecond of [e]: exactly the datetimes whose date is
    [e] or earlier. *)
Lemma datetime_leb_combine_max e ts :
  valid_time (dt_time ts) ->
  datetime_leb ts (combine e time_max) = date_leb (dt_date ts) e.
Proof.
  intros Hv. unfold datetime_leb, date_leb, lex_leb, datetime_key, combine.
  cbn [dt_date dt_time]. rewrite lex_compare_app by done.
  pose proof (time_max_greatest _ Hv).
  destruct (lex_compare (date_key (dt_date ts)) _); try done.
  by destruct (lex_compare (time_key (dt_time ts)) _).
Qed.

Lemma opt_datetime_leb_total a b :
  opt_datetime_leb a b = true \/ opt_datetime_leb b a = true.
Proof.
  destruct a, b; simpl; auto. apply lex_leb_total.
Qed.

Lemma opt_datetime_leb_trans a b c :
  opt_datetime_leb a b = true -> opt_datetime_leb b c = true ->
  opt_datetime_leb a c = true.
Proof.
  destruct a, b, c; simpl; try done. apply lex_leb_trans.
Qed.

#[global] Instance newer_first_total : Total newer_first.
Proof. intros r1 r2. unfold newer_first. apply opt_datetime_leb_total. Qed.

#[global] Instance newer_first_trans : Transitive newer_first.
Proof.
  intros r1 r2 r3 H12 H23. unfold newer_first in *.
  by apply (opt_datetime_leb_trans _ (row_timestamp r2)).
Qed.

(** ** Order of the index *)

#[global] Instance index_le_total : Total index_le.
Proof.
  intros r1 r2. unfold index_le.
  destruct (opt_datetime_leb (row_timestamp r1) (row_timestamp r2)) eqn:H12,
           (opt_datetime_leb (row_timestamp r2) (row_timestamp r1)) eqn:H21.
  - destruct (Z.le_ge_cases (row_id r1) (row_id r2)); [left | right]; done.
  - left. done.
  - right. done.
  - destruct (opt_datetime_leb_total (row_timestamp r1) (row_timestamp r2));
      congruence.
Qed.

#[global] Instance index_le_trans : Transitive index_le.
Proof.
  intros r1 r2 r3 [H12 Hid12] [H23 Hid23]. split.
  - by apply (opt_datetime_leb_trans _ (row_timestamp r2)).
  - intros H31.
    assert (H21 : opt_datetime_leb (row_timestamp r2) (row_timestamp r1) = true)
      by by apply (opt_datetime_leb_trans _ (row_timestamp r3)).
    assert (H32 : opt_datetime_leb (row_timestamp r3) (row_timestamp r2) = true)
      by by apply (opt_datetime_leb_trans _ (row_timestamp r1)).
    specialize (Hid12 H21). specialize (Hid23 H32). lia.
Qed.

#[global] Instance index_ge_total : Total index_ge.
Proof. intros r1 r2. unfold index_ge. apply index_le_total. Qed.

#[global] Instance index_ge_trans : Transitive index_ge.
Proof. intros r1 r2 r3 H12 H23. unfold index_ge in *. by etrans. Qed.

Lemma index_ge_newer_first r1 r2 : index_ge r1 r2 -> newer_first r1 r2.
Proof. by intros [H _]. Qed.

Lemma StronglySorted_weaken {A} (R S : relation A) (l : list A) :
  (forall x y, R x y -> S x y) -> StronglySorted R l -> StronglySorted S l.
Proof.
  intros HRS Hs. induction Hs as [|x l Hs IH Hall]; constructor; [done |].
  eapply Forall_impl; [exact Hall | apply HRS].
Qed.

Lemma scan_Permutation b rs : scan b rs ≡ₚ rs.
Proof. destruct b; [apply merge_sort_Permutation | done]. Qed.

Lemma scan_nil b : scan b [] = [].
Proof. by destruct b. Qed.

Lemma order_by_timestamp_desc_Permutation rs :
  order_by_timestamp_desc rs ≡ₚ rs.
Proof. apply merge_sort_Permutation. Qed.

Lemma order_by_timestamp_desc_sorted rs :
  StronglySorted newer_first (order_by_timestamp_desc rs).
Proof.
  apply (StronglySorted_weaken index_ge); [apply index_ge_newer_first |].
  apply StronglySorted_merge_sort; apply _.
Qed.

(** ** Rows and projections *)

Lemma project_lookup_in cols (r : row) c :
  c ∈ cols -> project cols r !! c = r !! c.
Proof.
  intros Hc. unfold project. destruct (r !! c) as [v|] eqn:Hr.
  - by apply map_lookup_filter_Some_2.
  - apply map_lookup_filter_None_2. by left.
Qed.

Lemma project_lookup_out cols (r : row) c :
  c ∉ cols -> project cols r !! c = None.
Proof.
  intros Hc. unfold project. apply map_lookup_filter_None_2.
  right. intros v _. exact Hc.
Qed.

Lemma project_dom cols (r : row) : dom (project cols r) ⊆ list_to_set cols.
Proof.
  intros c Hc. apply elem_of_dom in Hc as [v Hv].
  apply elem_of_list_to_set. destruct (decide (c ∈ cols)) as [|Hn]; [done |].
  by rewrite (project_lookup_out _ _ _ Hn) in Hv.
Qed.


Lemma row_timestamp_project cols (r : row) :
  "timestamp" ∈ cols -> row_timestamp (project cols r) = row_timestamp r.
Proof. intros Hc. unfold row_timestamp. by rewrite project_lookup_in. Qed.


Lemma same_name_refl c : same_name c c = true.
Proof. by apply bool_decide_eq_true_2. Qed.

Lemma has_column_spec c t :
  has_column c t = true <->
  exists c', c' ∈ columns t /\ lower_name c = lower_name c'.
Proof.
  unfold has_column. rewrite existsb_exists. split.
  - intros (c' & Hin & Hsame). exists c'. split; [by apply list_elem_of_In |].
    exact (bool_decide_eq_true_1 _ Hsame).
  - intros (c' & Hin & Hsame). exists c'. split; [by apply list_elem_of_In |].
    by apply bool_decide_eq_true_2.
Qed.

(** A column of exactly that name is found. *)
Lemma has_column_elem c t : c ∈ columns t -> has_column c t = true.
Proof. intros Hc. apply has_column_spec. by exists c. Qed.

Lemma has_columns_spec cols t :
  has_columns cols t = true <-> forall c, c ∈ cols -> has_column c t = true.
Proof.
  unfold has_columns. rewrite forallb_forall. split.
  - intros H c Hc. apply H. by apply list_elem_of_In.
  - intros H c Hc. apply H. by apply list_elem_of_In.
Qed.

Lemma has_columns_elem cols t :
  (forall c, c ∈ cols -> c ∈ columns t) -> has_columns cols t = true.
Proof.
  intros H. apply has_columns_spec. intros c Hc. by apply has_column_elem, H.
Qed.

Lemma schema_current_latest t :
  schema_current t -> has_columns latest_columns t = true.
Proof.
  unfold schema_current. rewrite !has_columns_spec. intros H c Hc.
  apply H. revert Hc. rewrite !list_elem_of_In. simpl. tauto.
Qed.

(** ** Range query *)

Lemma filter_twice {A} (f g : A -> bool) (l : list A) :
  List.filter g (List.filter f l) = List.filter (fun x => f x && g x) l.
Proof.
  induction l as [|x l IH]; simpl; [done |].
  destruct (f x); simpl; [destruct (g x) |]; by rewrite IH.
Qed.

Lemma filter_all {A} (l : list A) : List.filter (fun _ => true) l = l.
Proof. induction l as [|x l IH]; simpl; by rewrite ?IH. Qed.

(** The two optional filters of [get_results] select one window, which
    closes with the last microsecond of the end date. *)
Lemma get_results_window t start end_ :
  schema_current t ->
  get_results start end_ (Some t) =
  inr (read_sql QueryResult.mapped_columns
         (scan (constrained start end_)
            (List.filter (in_window time_max start end_) (rows t)))).
Proof.
  intros Hs. unfold get_results. rewrite Hs. do 2 f_equal.
  destruct start as [s|], end_ as [e|]; unfold in_window, constrained;
    f_equal.
  - by rewrite filter_twice.
  - apply List.filter_ext. intros r. by rewrite andb_true_r.
  - by rewrite filter_all.
Qed.

Lemma in_window_spans start end_ (r : row) ts :
  row_timestamp r = Some ts ->
  valid_time (dt_time ts) ->
  in_window time_max start end_ r = spans start end_ ts.
Proof.
  intros Hr Hv. unfold in_window, spans, timestamp_ge, timestamp_le.
  rewrite Hr. f_equal.
  - destruct start as [s|]; [|done].
    exact (datetime_leb_combine_min s ts Hv).
  - destruct end_ as [e|]; [|done].
    exact (datetime_leb_combine_max e ts Hv).
Qed.





(** The window of [get_results]: the rows of the table that lie in it, in
    the order of the scan. *)
Lemma get_results_records t start end_ :
  schema_current t ->
  exists df,
    get_results start end_ (Some t) = inr df /\
    df_columns df = QueryResult.mapped_columns /\
    df_records df =
      project QueryResult.mapped_columns <$>
        scan (constrained start end_)
          (List.filter (in_window time_max start end_) (rows t)).
Proof.
  intros Hs. eexists. split; [by apply get_results_window | done].
Qed.

(** C6, as the specification words it: the window would close at 23:59:59
    sharp.  A row stamped half a second later on the end date is returned all
    the same. *)
Lemma get_results_end_of_day_counterexample :
  ~ (forall t start end_,
       schema_current t ->
       exists df,
         get_results start end_ (Some t) = inr df /\
         df_records df ≡ₚ
           project QueryResult.mapped_columns <$>
             List.filter (in_window (Time 23 59 59 0) start end_) (rows t)).
Proof.
  intros H.
  destruct (H late_table None (Some (Date 2024 1 31))) as (df & Hdf & Hrec).
  { reflexivity. }
  rewrite get_results_window in Hdf by reflexivity.
  injection Hdf as <-. apply Permutation_length in Hrec.
  vm_compute in Hrec. discriminate.
Qed.

(** C6, amended: [get_results] returns exactly the rows whose timestamp lies
    in the inclusive interval from the start date at 00:00:00 to the end date
    at 23:59:59.999999, each as often as the table has it; an omitted bound
    leaves that side open. *)
Theorem get_results_inclusive_window t start end_ :
  schema_current t ->
  exists df,
    get_results start end_ (Some t) = inr df /\
    df_records df ≡ₚ
      project QueryResult.mapped_columns <$>
        List.filter (in_window (Time 23 59 59 999999) start end_) (rows t).
Proof.
  intros Hs.
  destruct (get_results_records t start end_ Hs) as (df & Hdf & _ & Hrec).
  exists df. split; [done |]. by rewrite Hrec, scan_Permutation.
Qed.

Lemma get_results_inclusive_window_witness :
  schema_current example_table /\
  exists df,
    get_results (Some (Date 2024 1 30)) (Some (Date 2024 1 30))
      (Some example_table) = inr df /\
    df_records df ≡ₚ
      project QueryResult.mapped_columns <$>
        List.filter
          (in_window (Time 23 59 59 999999) (Some (Date 2024 1 30))
             (Some (Date 2024 1 30)))
          (rows example_table).
Proof.
  assert (Hs : schema_current example_table) by reflexivity.
  split; [exact Hs |].
  exact (get_results_inclusive_window example_table (Some (Date 2024 1 30))
           (Some (Date 2024 1 30)) Hs).
Defined.

(** A query with a bound returns its rows in the order of the index on
    [timestamp], one without in the order of the table. *)
Example get_results_row_order :
  (row_id <$> rows example_table) = [1; 2; 3]%Z /\
  (row_id <$> scan true (rows example_table)) = [1; 3; 2]%Z /\
  (row_id <$> scan false (rows example_table)) = [1; 2; 3]%Z /\
  (row_id <$> order_by_timestamp_desc (rows example_table)) = [2; 3; 1]%Z.
Proof. vm_compute. done. Qed.

(** The late row is inside the window of the code and outside the one that
    closes at 23:59:59. *)
Example late_row_windows :
  List.map (in_window time_max None (Some (Date 2024 1 31)))
    (rows late_table) = [true] /\
  List.map (in_window (Time 23 59 59 0) None (Some (Date 2024 1 31)))
    (rows late_table) = [false] /\
  List.map (in_window time_max None (Some (Date 2024 1 30)))
    (rows late_table) = [false].
Proof. vm_compute. done. Qed.

(** ** Latest rows *)

Lemma StronglySorted_lookup_lt {A} (R : relation A) (l : list A) i j a b :
  StronglySorted R l -> i < j ->
  l !! i = Some a -> l !! j = Some b -> R a b.
Proof.
  intros Hs. revert i j.
  induction Hs as [|x l Hs IH Hall]; intros i j Hij Hi Hj.
  - done.
  - destruct j as [|j]; [lia |]. destruct i as [|i]; simpl in *.
    + injection Hi as ->. rewrite Forall_forall in Hall.
      apply Hall, list_elem_of_lookup. by exists j.
    + apply (IH i j); [lia | done | done].
Qed.

Lemma sql_limit_take (n : Z) (rs : list row) :
  (0 <= n)%Z -> sql_limit n rs = take (Z.to_nat n) rs.
Proof.
  intros Hn. unfold sql_limit. by destruct (Z.ltb_spec n 0); [lia |].
Qed.

Lemma fits_int64_spec n :
  fits_int64 n = true <-> (- INT64_MAX - 1 <= n <= INT64_MAX)%Z.
Proof. unfold fits_int64. rewrite andb_true_iff, !Z.leb_le. tauto. Qed.

Lemma newer_first_project cols (r1 r2 : row) :
  "timestamp" ∈ cols ->
  newer_first r1 r2 -> newer_first (project cols r1) (project cols r2).
Proof.
  intros Hc. unfold newer_first. by rewrite !row_timestamp_project.
Qed.

Lemma newer_first_timestamps (r1 r2 : row) d1 d2 :
  newer_first r1 r2 ->
  row_timestamp r1 = Some d1 -> row_timestamp r2 = Some d2 ->
  datetime_leb d2 d1 = true.
Proof. unfold newer_first. intros H H1 H2. by rewrite H1, H2 in H. Qed.

Lemma timestamp_in_latest_columns : "timestamp" ∈ latest_columns.
Proof. apply list_elem_of_In. simpl. tauto. Qed.

(** The frame of [get_latest_excerpts] for a limit that the driver binds. *)
Lemma get_latest_excerpts_frame limit t :
  schema_current t ->
  (- INT64_MAX - 1 <= limit <= INT64_MAX)%Z ->
  get_latest_excerpts limit (Some t) =
  inr (read_sql latest_columns
         (sql_limit limit (order_by_timestamp_desc (rows t)))).
Proof.
  intros Hs Hl. unfold get_latest_excerpts.
  rewrite (schema_current_latest t Hs).
  by rewrite (proj2 (fits_int64_spec limit) Hl).
Qed.

(** For a non-negative limit: the first [n] rows of the table sorted by
    descending timestamp. *)
Lemma get_latest_excerpts_records (n : Z) t :
  schema_current t ->
  (0 <= n <= INT64_MAX)%Z ->
  get_latest_excerpts n (Some t) =
  inr (Frame latest_columns
         (take (Z.to_nat n)
            (project latest_columns <$> order_by_timestamp_desc (rows t)))).
Proof.
  intros Hs Hn. rewrite get_latest_excerpts_frame; [| done |].
  - rewrite sql_limit_take by lia. unfold read_sql. by rewrite fmap_take.
  - unfold INT64_MAX in *. lia.
Qed.

Lemma sorted_projection t :
  StronglySorted newer_first
    (project latest_columns <$> order_by_timestamp_desc (rows t)).
Proof.
  apply (StronglySorted_fmap _ newer_first).
  - intros r1 r2. apply newer_first_project, timestamp_in_latest_columns.
  - apply order_by_timestamp_desc_sorted.
Qed.

Lemma datetime_leb_refl d : datetime_leb d d = true.
Proof.
  by destruct (opt_datetime_leb_total (Some d) (Some d)).
Qed.

(** The three latest rows of the example table: the second and the third
    carry the same timestamp. *)
Lemma latest_three_of_example :
  exists df r1 r2 d,
    get_latest_excerpts 3 (Some example_table) = inr df /\
    df_records df !! 1 = Some r1 /\
    df_records df !! 2 = Some r2 /\
    row_timestamp r1 = Some d /\
    row_timestamp r2 = Some d.
Proof.
  eexists _, _, _, _. split; [reflexivity |].
  split; [vm_compute; reflexivity |].
  split; [vm_compute; reflexivity |].
  split; vm_compute; reflexivity.
Qed.

(** C7, as the specification words it: for every [n] at most [n] rows, each
    strictly newer than the rows after it.  Of the three latest rows of the
    example table the last two were stamped at the same instant. *)
Lemma get_latest_excerpts_strict_counterexample :
  ~ (forall (n : Z) (t : table),
       schema_current t ->
       exists df,
         get_latest_excerpts n (Some t) = inr df /\
         (Z.of_nat (length (df_records df)) <= n)%Z /\
         (forall i j r1 r2 d1 d2,
             i < j ->
             df_records df !! i = Some r1 -> df_records df !! j = Some r2 ->
             row_timestamp r1 = Some d1 -> row_timestamp r2 = Some d2 ->
             datetime_leb d1 d2 = false) /\
         (forall w,
             w_db w = Some t ->
             exists w1,
               latest n w = (inr df, w1) /\
               latest n w1 = (inr df, w1))).
Proof.
  intros H.
  destruct (H 3%Z example_table eq_refl) as (df & Hdf & _ & Hstrict & _).
  destruct latest_three_of_example
    as (df' & r1 & r2 & d & Hdf' & H1 & H2 & Hd1 & Hd2).
  rewrite Hdf' in Hdf. injection Hdf as <-.
  assert (Hlt : 1 < 2) by lia.
  specialize (Hstrict 1 2 r1 r2 d d Hlt H1 H2 Hd1 Hd2).
  by rewrite datetime_leb_refl in Hstrict.
Qed.

(** C7, amended: for every limit [n] from 0 up to the largest integer the
    database takes, [get_latest_excerpts] returns at most [n] rows, in
    descending order of timestamp: of two returned rows the earlier one is
    never older (rows of equal timestamp follow one another).  They are the
    most recent rows: every row left out is no more recent than any row
    returned.  A second call with no write in between returns the same
    frame. *)
Theorem get_latest_excerpts_most_recent (n : Z) (t : table) :
  schema_current t ->
  (0 <= n <= INT64_MAX)%Z ->
  exists df,
    get_latest_excerpts n (Some t) = inr df /\
    (Z.of_nat (length (df_records df)) <= n)%Z /\
    (forall i j r1 r2 d1 d2,
        i < j ->
        df_records df !! i = Some r1 -> df_records df !! j = Some r2 ->
        row_timestamp r1 = Some d1 -> row_timestamp r2 = Some d2 ->
        datetime_leb d2 d1 = true) /\
    (exists rest,
        df_records df ++ rest ≡ₚ project latest_columns <$> rows t /\
        forall r1 r2, r1 ∈ df_records df -> r2 ∈ rest -> newer_first r1 r2) /\
    (forall w,
        w_db w = Some t ->
        exists w1,
          latest n w = (inr df, w1) /\
          latest n w1 = (inr df, w1)).
Proof.
  intros Hs Hn. eexists. split; [by apply get_latest_excerpts_records |].
  cbn [df_records].
  set (sorted := project latest_columns <$> order_by_timestamp_desc (rows t)).
  assert (Hsorted : StronglySorted newer_first sorted)
    by apply sorted_projection.
  assert (Hsplit : take (Z.to_nat n) sorted ++ drop (Z.to_nat n) sorted
                   = sorted)
    by apply take_drop.
  split; [| split; [| split]].
  - pose proof (firstn_le_length (Z.to_nat n) sorted) as Hlen.
    fold (take (Z.to_nat n) sorted) in Hlen. lia.
  - intros i j r1 r2 d1 d2 Hij H1 H2 Hd1 Hd2.
    apply (newer_first_timestamps r1 r2); [| done | done].
    rewrite <- Hsplit in Hsorted. apply StronglySorted_app_1_l in Hsorted.
    by apply (StronglySorted_lookup_lt newer_first (take (Z.to_nat n) sorted)
                i j).
  - exists (drop (Z.to_nat n) sorted). split.
    + rewrite Hsplit. unfold sorted.
      by rewrite order_by_timestamp_desc_Permutation.
    + intros r1 r2. rewrite <- Hsplit in Hsorted.
      by apply StronglySorted_app_1_elem_of.
  - intros w Hw. exists w. unfold latest, read_db. rewrite Hw.
    by rewrite get_latest_excerpts_records.
Qed.

Lemma get_latest_excerpts_most_recent_witness :
  schema_current example_table /\
  (0 <= 2 <= INT64_MAX)%Z /\
  exists df,
    get_latest_excerpts 2 (Some example_table) = inr df /\
    (Z.of_nat (length (df_records df)) <= 2)%Z /\
    (forall i j r1 r2 d1 d2,
        i < j ->
        df_records df !! i = Some r1 -> df_records df !! j = Some r2 ->
        row_timestamp r1 = Some d1 -> row_timestamp r2 = Some d2 ->
        datetime_leb d2 d1 = true).
Proof.
  assert (Hs : schema_current example_table) by reflexivity.
  assert (Hn : (0 <= 2 <= INT64_MAX)%Z) by (unfold INT64_MAX; lia).
  split; [exact Hs |]. split; [exact Hn |].
  destruct (get_latest_excerpts_most_recent 2 example_table Hs Hn)
    as (df & Hdf & Hlen & Hord & _).
  exists df. split; [exact Hdf |]. split; [exact Hlen | exact Hord].
Defined.

(** The two most recent rows of the example table, newest first; of the two
    rows of equal timestamp the one with the larger rowid takes the second
    place. *)
Example latest_two_of_example :
  match get_latest_excerpts 2 (Some example_table) with
  | inr df => (df_columns df, row_timestamp <$> df_records df)
  | inl _ => ([], [])
  end
  = (latest_columns,
     [Some (DateTime (Date 2024 1 31) (Time 9 0 3 0));
      Some (DateTime (Date 2024 1 30) (Time 9 0 1 250000))]).
Proof. vm_compute. reflexivity. Qed.

(** A negative limit is no limit. *)
Example latest_negative_limit :
  match get_latest_excerpts (-1) (Some example_table) with
  | inr df => length (df_records df)
  | inl _ => 0
  end = 3.
Proof. vm_compute. reflexivity. Qed.

(** A limit beyond the integers of the database is refused by the driver. *)
Example latest_overflowing_limit :
  get_latest_excerpts (INT64_MAX + 1) (Some example_table)
  = inl OverflowError /\
  get_latest_excerpts (INT64_MAX + 1) None = inl DatabaseError.
Proof. split; reflexivity. Qed.

(** ** Initialisation and migration *)

Lemma mapped_columns_NoDup :
  NoDup (lower_name <$> QueryResult.mapped_columns).
Proof. apply (bool_decide_unpack _). by vm_compute. Qed.

Lemma init_db_absent :
  init_db None = Some (Table QueryResult.mapped_columns []).
Proof. reflexivity. Qed.

(** With a column of that name, up to case, the table stays as it is: either
    the check finds the name, or the ALTER statement is refused and the error
    is caught. *)
Lemma init_db_kept t :
  has_column "context_category" t = true -> init_db (Some t) = Some t.
Proof.
  intros Hc. unfold init_db, _migrate_database, alter_table_add_column.
  cbn [create_all table_info]. rewrite Hc. by case_bool_decide.
Qed.

Lemma init_db_present t :
  "context_category" ∈ columns t -> init_db (Some t) = Some t.
Proof. intros Hc. by apply init_db_kept, has_column_elem. Qed.

Lemma init_db_missing t :
  has_column "context_category" t = false ->
  init_db (Some t) =
  Some (Table (columns t ++ ["context_category"])
          (<["context_category" := VText (lit "General")]> <$> rows t)).
Proof.
  intros Hc. unfold init_db, _migrate_database, alter_table_add_column.
  cbn [create_all table_info]. rewrite Hc. case_bool_decide as Hin; [| done].
  apply has_column_elem in Hin. congruence.
Qed.

(** After [init_db] the column is there, so a further [init_db] finds
    nothing to do. *)
Lemma init_db_has_context_category db :
  exists t', init_db db = Some t' /\ has_column "context_category" t' = true.
Proof.
  destruct db as [t|].
  - destruct (has_column "context_category" t) eqn:Hc.
    + exists t. by rewrite init_db_kept.
    + rewrite init_db_missing by done. eexists. split; [done |].
      apply has_column_elem. cbn [columns].
      apply elem_of_app. right. by apply list_elem_of_singleton.
  - eexists. split; [apply init_db_absent | reflexivity].
Qed.

(** C8: [init_db] is idempotent.  A second call changes nothing, so it adds
    no column and drops no row; the first call keeps the column names
    distinct (up to case, as SQLite compares them), keeps every existing row
    with its values in the existing columns, and appends [context_category]
    with the default 'General' exactly when the table has no column of that
    name (up to case); a missing table is created with the column. *)
Theorem init_db_idempotent_additive (db : database) :
  NoDup (lower_name <$> table_info db) ->
  init_db (init_db db) = init_db db /\
  NoDup (lower_name <$> table_info (init_db db)) /\
  length (rows_of (init_db db)) = length (rows_of db) /\
  (forall i r,
      rows_of db !! i = Some r ->
      exists r',
        rows_of (init_db db) !! i = Some r' /\
        forall c, c ∈ table_info db -> r' !! c = r !! c) /\
  (forall t,
      db = Some t ->
      if has_column "context_category" t
      then init_db db = Some t
      else init_db db =
           Some (Table (columns t ++ ["context_category"])
                   (<["context_category" := VText (lit "General")]>
                      <$> rows t))) /\
  (db = None -> init_db db = Some (Table QueryResult.mapped_columns [])).
Proof.
  intros Hnd. split; [| split; [| split; [| split; [| split]]]].
  - destruct (init_db_has_context_category db) as (t1 & -> & Hc).
    by apply init_db_kept.
  - destruct db as [t|]; [| apply mapped_columns_NoDup].
    destruct (has_column "context_category" t) eqn:Hc.
    + by rewrite init_db_kept.
    + rewrite init_db_missing by done. cbn [table_info columns] in *.
      rewrite fmap_app. apply NoDup_app. split; [done |].
      split; [| apply NoDup_singleton].
      intros n Hin Hn. cbn in Hn. apply list_elem_of_singleton in Hn as ->.
      apply list_elem_of_fmap in Hin as (c' & Hsame & Hin).
      assert (has_column "context_category" t = true); [| congruence].
      apply has_column_spec. by exists c'.
  - destruct db as [t|]; [| done].
    destruct (has_column "context_category" t) eqn:Hc.
    + by rewrite init_db_kept.
    + rewrite init_db_missing by done. simpl. by rewrite length_fmap.
  - intros i r Hr. destruct db as [t|]; [| done]. simpl in *.
    destruct (has_column "context_category" t) eqn:Hc.
    + rewrite init_db_kept by done. by exists r.
    + rewrite init_db_missing by done. simpl.
      exists (<["context_category" := VText (lit "General")]> r). split.
      * by rewrite list_lookup_fmap, Hr.
      * intros c Hin. apply lookup_insert_ne. intros <-.
        apply has_column_elem in Hin. congruence.
  - intros t ->. destruct (has_column "context_category" t) eqn:Hc.
    + by apply init_db_kept.
    + by apply init_db_missing.
  - by intros ->.
Qed.

Lemma init_db_idempotent_additive_witness :
  NoDup (lower_name <$> table_info (Some legacy_table)) /\
  init_db (init_db (Some legacy_table)) = init_db (Some legacy_table) /\
  NoDup (lower_name <$> table_info (init_db (Some legacy_table))).
Proof.
  assert (Hnd : NoDup (lower_name <$> table_info (Some legacy_table))).
  { apply (bool_decide_unpack _). by vm_compute. }
  split; [exact Hnd |].
  destruct (init_db_idempotent_additive (Some legacy_table) Hnd)
    as (Hidem & Hnd' & _).
  split; [exact Hidem | exact Hnd'].
Defined.

(** A table that declares [Context_Category] is left as it is: the check does
    not find the name in lower case, the ALTER statement is refused, and the
    error is caught. *)
Example init_db_capitals :
  bool_decide ("context_category" ∈ columns capitals_table) = false /\
  alter_table_add_column "context_category" (VText (lit "General"))
    (Some capitals_table) = inl OperationalError /\
  init_db (Some capitals_table) = Some capitals_table.
Proof. split; [by vm_compute |]. split; reflexivity. Qed.

(** The earlier schema gains the column at the end, and its row reads the
    default there while keeping its other values. *)
Example init_db_legacy :
  table_info (init_db (Some legacy_table)) =
    columns legacy_table ++ ["context_category"] /\
  (fun r => r !! "context_category") <$> rows_of (init_db (Some legacy_table))
    = [Some (VText (lit "General"))] /\
  (fun r => r !! "sentiment") <$> rows_of (init_db (Some legacy_table))
    = [Some (VText (lit "Positive"))].
Proof. vm_compute. done. Qed.

Example init_db_fresh_twice :
  init_db (init_db None) = Some (Table QueryResult.mapped_columns []).
Proof. reflexivity. Qed.

(** ** Column names of the frames *)

Lemma read_sql_dom cols rs r :
  r ∈ df_records (read_sql cols rs) -> dom r ⊆ list_to_set cols.
Proof.
  unfold read_sql; cbn [df_records]. intros Hr.
  apply list_elem_of_fmap in Hr as (r0 & -> & _). apply project_dom.
Qed.

(** C9, as the specification words it: both frames would be labelled
    timestamp, query, mentioned, context_category, sentiment, excerpt, with
    full_response optional.  Neither frame of the example table is. *)
Lemma contract_columns_counterexample :
  ~ (forall t start end_ limit df,
       schema_current t ->
       get_results start end_ (Some t) = inr df \/
       get_latest_excerpts limit (Some t) = inr df ->
       df_columns df = contract_columns \/
       df_columns df = contract_columns ++ ["full_response"]).
Proof.
  intros H.
  destruct (H example_table None None 10%Z
              (read_sql latest_columns
                 (sql_limit 10 (order_by_timestamp_desc (rows example_table)))))
    as [Hc | Hc].
  - reflexivity.
  - right. apply get_latest_excerpts_frame; [reflexivity |].
    unfold INT64_MAX. lia.
  - cbn [read_sql df_columns] in Hc. discriminate.
  - cbn [read_sql df_columns] in Hc. discriminate.
Qed.

(** C9, amended: the frame of the range query is labelled with the nine
    mapped column names and the frame of the latest rows with six of them;
    the mention flag is named [whoppah_mentioned] in both, and no record has
    an entry outside its frame's labels.  The range query returns its frame
    for every pair of bounds, the latest rows come for every limit that the
    database takes. *)
Theorem frames_column_names t start end_ limit :
  schema_current t ->
  (exists df_range,
      get_results start end_ (Some t) = inr df_range /\
      df_columns df_range =
        ["id"; "timestamp"; "query"; "whoppah_mentioned";
         "chairish_mentioned"; "context_category"; "sentiment"; "excerpt";
         "full_response"] /\
      (forall r, r ∈ df_records df_range ->
                 dom r ⊆ list_to_set (df_columns df_range))) /\
  (forall df_latest,
      get_latest_excerpts limit (Some t) = inr df_latest ->
      df_columns df_latest =
        ["timestamp"; "query"; "whoppah_mentioned"; "context_category";
         "sentiment"; "excerpt"] /\
      (forall r, r ∈ df_records df_latest ->
                 dom r ⊆ list_to_set (df_columns df_latest))) /\
  ((- INT64_MAX - 1 <= limit <= INT64_MAX)%Z ->
   exists df_latest, get_latest_excerpts limit (Some t) = inr df_latest).
Proof.
  intros Hs. split; [| split].
  - eexists. split; [by apply get_results_window |]. split; [done |].
    intros r Hr. by apply read_sql_dom in Hr.
  - intros df Hdf. unfold get_latest_excerpts in Hdf.
    rewrite (schema_current_latest t Hs) in Hdf.
    destruct (fits_int64 limit); [| done]. injection Hdf as <-.
    split; [done |]. intros r Hr. by apply read_sql_dom in Hr.
  - intros Hl. eexists. by apply get_latest_excerpts_frame.
Qed.

Lemma frames_column_names_witness :
  schema_current example_table /\
  exists df_range df_latest,
    get_results None None (Some example_table) = inr df_range /\
    get_latest_excerpts 10 (Some example_table) = inr df_latest /\
    df_columns df_range =
      ["id"; "timestamp"; "query"; "whoppah_mentioned"; "chairish_mentioned";
       "context_category"; "sentiment"; "excerpt"; "full_response"] /\
    df_columns df_latest =
      ["timestamp"; "query"; "whoppah_mentioned"; "context_category";
       "sentiment"; "excerpt"].
Proof.
  assert (Hs : schema_current example_table) by reflexivity.
  split; [exact Hs |].
  destruct (frames_column_names example_table None None 10%Z Hs)
    as ((df1 & H1 & H3 & _) & Hlatest & Hex).
  destruct Hex as (df2 & H2); [unfold INT64_MAX; lia |].
  destruct (Hlatest df2 H2) as (H4 & _).
  exists df1, df2. repeat split; assumption.
Defined.

(** A record of the latest rows has its mention flag under
    [whoppah_mentioned] and nothing under [mentioned]. *)
Example latest_record_mention_flag :
  match get_latest_excerpts 1 (Some example_table) with
  | inr df =>
      (fun r => (r !! "whoppah_mentioned", r !! "mentioned"))
        <$> df_records df
  | inl _ => []
  end = [(Some (VBool false), None)].
Proof. vm_compute. reflexivity. Qed.

(** ** The daily job *)

Lemma runner_row_lookups lower id ts q text :
  runner_row lower id ts q text !! "query" = Some (VText q) /\
  runner_row lower id ts q text !! "chairish_mentioned" = Some (VBool false) /\
  runner_row lower id ts q text !! "excerpt" = Some (VText (take 200 text)) /\
  runner_row lower id ts q text !! "full_response" = Some (VText text).
Proof.
  unfold runner_row. by destruct (analyze_response lower text) as [[? ?] ?].
Qed.

Section JobProperties.

Variable E : environment.

(** What one gateway call does to the world. *)
Lemma call_llm_unfold q w :
  call_llm E q w =
  match OPENAI_API_KEY E with
  | Some (_ :: _) =>
      (match chat_completion E (w_requests w) q with
       | inl e => inl e
       | inr content => inr (default [] content)
       end,
       World (w_db w) (S (w_requests w)) (w_readings w))
  | _ => (inl ValueError, w)
  end.
Proof.
  unfold call_llm, get_api_key, bind, chat_completions_create, ret, raise.
  destruct (OPENAI_API_KEY E) as [[|c cs]|]; try done.
  by destruct (chat_completion E (w_requests w) q).
Qed.

(** A failed call is skipped: nothing is written and no reading is taken. *)
Lemma run_query_skipped q w w' e :
  call_llm E q w = (inl e, w') -> run_query E q w = (inr tt, w').
Proof. intros H. unfold run_query, bind, try_except. by rewrite H. Qed.

(** An answered call is classified and handed to [add_result]. *)
Lemma run_query_answered q w w' text :
  call_llm E q w = (inr text, w') ->
  run_query E q w =
  match w_db w' with
  | Some t =>
      if has_columns QueryResult.mapped_columns t then
        (inr tt,
         World
           (Some (Table (columns t)
                    (rows t ++ [runner_row (str_lower E) (next_id t)
                                  (datetime_now E (w_readings w')) q text])))
           (w_requests w') (S (w_readings w')))
      else
        (inl OperationalError,
         World (w_db w') (w_requests w') (S (w_readings w')))
  | None =>
      (inl OperationalError,
       World (w_db w') (w_requests w') (S (w_readings w')))
  end.
Proof.
  intros H. unfold run_query, bind, try_except. rewrite H.
  unfold runner_row, slice_to.
  destruct (analyze_response (str_lower E) text) as [[whoppah cat] sent].
  unfold datetime_now_tz, on_db, add_result, session_add; cbn [w_db].
  destruct (w_db w') as [t|]; [| done].
  by destruct (has_columns QueryResult.mapped_columns t).
Qed.

(** Whatever the gateway, the credential and the database do, one catalog
    entry leaves the table as it was or appends one row of the shape
    [runner_row]. *)
Lemma run_query_rows q w :
  exists new,
    rows_of (w_db (run_query E q w).2) = rows_of (w_db w) ++ new /\
    Forall (fun r => exists id ts text,
                r = runner_row (str_lower E) id ts q text) new.
Proof.
  destruct (call_llm E q w) as [[e|text] w'] eqn:Hcall.
  - rewrite (run_query_skipped _ _ _ _ Hcall). exists [].
    rewrite app_nil_r. split; [| done].
    rewrite call_llm_unfold in Hcall.
    destruct (OPENAI_API_KEY E) as [[|c cs]|]; by injection Hcall as _ <-.
  - rewrite (run_query_answered _ _ _ _ Hcall).
    assert (Hdb : w_db w' = w_db w).
    { rewrite call_llm_unfold in Hcall.
      destruct (OPENAI_API_KEY E) as [[|c cs]|]; by injection Hcall as _ <-. }
    rewrite Hdb. destruct (w_db w) as [t|] eqn:Ht; cbn [snd w_db].
    + destruct (has_columns QueryResult.mapped_columns t); cbn [snd w_db].
      * eexists [_]. split; [done |]. apply Forall_singleton. eauto.
      * exists []. by rewrite app_nil_r.
    + by exists [].
Qed.

Lemma for_each_rows qs w :
  exists new,
    rows_of (w_db (for_each qs (run_query E) w).2) = rows_of (w_db w) ++ new /\
    Forall (fun r => exists id ts q text,
                r = runner_row (str_lower E) id ts q text) new.
Proof.
  revert w. induction qs as [|q qs IH]; intros w.
  - exists []. by rewrite app_nil_r.
  - destruct (run_query_rows q w) as (new1 & Hrows1 & Hall1).
    cbn [for_each]. unfold bind at 1.
    destruct (run_query E q w) as [[e|[]] w1] eqn:Hq; cbn [snd] in *.
    + exists new1. split; [done |].
      eapply Forall_impl; [exact Hall1 |]. intros r (id & ts & text & ->).
      eauto.
    + destruct (IH w1) as (new2 & Hrows2 & Hall2).
      exists (new1 ++ new2). rewrite Hrows2, Hrows1, app_assoc.
      split; [done |]. apply Forall_app. split; [| done].
      eapply Forall_impl; [exact Hall1 |]. intros r (id & ts & text & ->).
      eauto.
Qed.

(** C4: in every row the daily job writes, the stored excerpt is the first
    200 characters of the stored full response, and is the full response
    itself when that has 200 characters or fewer. *)
Theorem run_queries_excerpt_prefix (w : world) :
  exists new,
    rows_of (w_db (run_queries E w).2) = rows_of (w_db w) ++ new /\
    Forall (fun r => exists full_response,
                r !! "full_response" = Some (VText full_response) /\
                r !! "excerpt" = Some (VText (take 200 full_response)) /\
                (length full_response <= 200 ->
                 r !! "excerpt" = Some (VText full_response))) new.
Proof.
  destruct (for_each_rows QUERIES w) as (new & Hrows & Hall).
  exists new. split; [exact Hrows |].
  eapply Forall_impl; [exact Hall |].
  intros r (id & ts & q & text & ->). exists text.
  destruct (runner_row_lookups (str_lower E) id ts q text)
    as (_ & _ & Hex & Hfull).
  split; [done |]. split; [done |].
  intros Hlen. by rewrite Hex, take_ge.
Qed.

(** C10: [chairish_mentioned] is a mapped column that the specified data
    model does not list, and every row the daily job writes holds [False]
    in it. *)
Theorem run_queries_chairish_false (w : world) :
  "chairish_mentioned" ∈ QueryResult.mapped_columns /\
  ("chairish_mentioned" ∉ specified_fields) /\
  exists new,
    rows_of (w_db (run_queries E w).2) = rows_of (w_db w) ++ new /\
    Forall (fun r => r !! "chairish_mentioned" = Some (VBool false)) new.
Proof.
  split; [| split].
  - apply list_elem_of_In. simpl. tauto.
  - rewrite list_elem_of_In. simpl. intros H.
    repeat (destruct H as [H | H]; [discriminate |]). done.
  - destruct (for_each_rows QUERIES w) as (new & Hrows & Hall).
    exists new. split; [exact Hrows |].
    eapply Forall_impl; [exact Hall |].
    intros r (id & ts & q & text & ->).
    apply (runner_row_lookups (str_lower E) id ts q text).
Qed.

End JobProperties.

(** ** A pass with gateway failures *)

Lemma answered_failures E k qs :
  length (answered E k qs) + failures E k qs = length qs.
Proof.
  revert k. induction qs as [|q qs IH]; intros k; simpl; [done |].
  specialize (IH (S k)). destruct (chat_completion E k q); simpl.
  - by rewrite Nat.add_succ_r, IH.
  - by rewrite IH.
Qed.






(** The example pass: request 11 fails, 44 rows are written, 45 requests
    are sent and 44 clock readings are taken. *)
Example run_queries_example :
  let '(r, w) := run_queries example_env example_world in
  (r, length (rows_of (w_db w)), w_requests w, w_readings w)
  = (inr tt, 44, 45, 44).
Proof. vm_compute. reflexivity. Qed.

(** Without a credential every call fails before anything is sent, and
    nothing is written. *)
Example run_queries_no_credential :
  let E := Environment None (chat_completion example_env)
             (datetime_now example_env) ascii_lower in
  let '(r, w) := run_queries E example_world in
  (r, length (rows_of (w_db w)), w_requests w) = (inr tt, 0, 0).
Proof. vm_compute. reflexivity. Qed.

(** Against a database that was never initialised the first answered query
    raises out of the pass. *)
Example run_queries_no_table :
  let '(r, w) := run_queries example_env (World None 0 0) in
  (r, w_requests w) = (inl OperationalError, 1).
Proof. vm_compute. reflexivity. Qed.

(** A response of 300 characters is stored with an excerpt of 200. *)
Example runner_row_long_response :
  let text := lit "Whoppah " ++ replicate 292 97%N in
  let r := runner_row ascii_lower 1 (DateTime (Date 2024 1 31) time_min)
             example_query text in
  r !! "excerpt" = Some (VText (take 200 text)) /\
  length (take 200 text) = 200 /\ length text = 300.
Proof. vm_compute. done. Qed.

(** * Further properties of the code *)

(** ** Classifier: the two chains *)

Section ClassifierChains.

Variable lower : str -> str.

(** X1: with the brand present, the context label is the one of the first
    keyword group, in the order Recommendation, Shopping, Selling, Premium,
    Sustainability, Investment, one of whose words occurs, and the sentiment
    label the one of the first group in the order superlatives, negative
    words, mild positive words; the defaults are General and Neutral. *)
Theorem analyze_response_first_match text :
  contains_ci lower "whoppah" text ->
  analyze_response lower text =
  (true,
   first_match CONTEXT_CHAIN "General" (lower text),
   first_match SENTIMENT_CHAIN "Neutral" (lower text)).
Proof.
  unfold contains_ci. intros Hb. unfold analyze_response. rewrite Hb.
  cbn [first_match CONTEXT_CHAIN SENTIMENT_CHAIN]. unfold SUPERLATIVES.
  repeat match goal with
         | |- context [if any_in ?ws ?l then _ else _] =>
             destruct (any_in ws l)
         end; reflexivity.
Qed.

(** X2: whatever the text, the context label is one of the seven category
    names and the sentiment label one of Positive, Negative, Neutral. *)
Theorem analyze_response_labels text :
  (analyze_response lower text).1.2 ∈
    (lit <$> ["General"; "Recommendation"; "Shopping"; "Selling"; "Premium";
              "Sustainability"; "Investment"]) /\
  (analyze_response lower text).2 ∈
    (lit <$> ["Positive"; "Negative"; "Neutral"]).
Proof.
  unfold analyze_response, SUPERLATIVES.
  destruct (str_in (lit "whoppah") (lower text)); cbn [fst snd].
  - split;
      repeat match goal with
             | |- context [if any_in ?ws ?l then _ else _] =>
                 destruct (any_in ws l)
             end;
      apply list_elem_of_In; cbn [fmap list_fmap In]; tauto.
  - split; apply list_elem_of_In; cbn [fmap list_fmap In]; tauto.
Qed.

(** X3: a mention with a negative word and no superlative is Negative, also
    when a mild positive word occurs as well. *)
Theorem analyze_response_negative text :
  contains_ci lower "whoppah" text ->
  (forall w, w ∈ ["best"; "great"; "excellent"; "amazing"; "top"; "superior"] ->
             ~ contains_ci lower w text) ->
  (exists w, w ∈ ["problem"; "issue"; "bad"; "poor"; "difficult"] /\
             contains_ci lower w text) ->
  (analyze_response lower text).2 = lit "Negative".
Proof.
  unfold contains_ci. intros Hb Hsup (w & Hw & Hin).
  unfold analyze_response. rewrite Hb. cbn [snd].
  assert (Hnone : any_in SUPERLATIVES (lower text) = false).
  { apply not_true_is_false. intros Hany.
    apply existsb_exists in Hany as (s & Hs & Hin').
    apply (Hsup s); [by apply list_elem_of_In | done]. }
  rewrite Hnone. by rewrite (any_in_intro _ _ w Hw Hin).
Qed.

(** X4: the mention flag is set exactly when "whoppah" is a contiguous part
    of the lower-cased text. *)
Theorem analyze_response_mention_iff text :
  (analyze_response lower text).1.1 = true <->
  exists before after, lower text = before ++ lit "whoppah" ++ after.
Proof. rewrite analyze_response_mentioned. apply str_in_spec. Qed.

End ClassifierChains.

Lemma analyze_response_first_match_witness :
  let text := lit "You can buy Whoppah chairs." in
  contains_ci ascii_lower "whoppah" text /\
  analyze_response ascii_lower text =
  (true,
   first_match CONTEXT_CHAIN "General" (ascii_lower text),
   first_match SENTIMENT_CHAIN "Neutral" (ascii_lower text)).
Proof.
  intros text.
  assert (Hb : contains_ci ascii_lower "whoppah" text).
  { vm_compute. reflexivity. }
  split; [exact Hb | exact (analyze_response_first_match ascii_lower text Hb)].
Defined.

Lemma analyze_response_negative_witness :
  let text := lit "Whoppah is good, but returns are a PROBLEM." in
  (analyze_response ascii_lower text).2 = lit "Negative".
Proof.
  intros text. apply (analyze_response_negative ascii_lower text).
  - vm_compute. reflexivity.
  - intros w Hw. unfold contains_ci.
    repeat (apply elem_of_cons in Hw as [-> | Hw];
            [vm_compute; discriminate |]).
    by apply elem_of_nil in Hw.
  - exists "problem". split; [set_solver | vm_compute; reflexivity].
Defined.

Example first_match_examples :
  first_match CONTEXT_CHAIN "General" (lit "a sustainable platform")
    = lit "Selling" /\
  first_match CONTEXT_CHAIN "General" (lit "nothing to see") = lit "General" /\
  first_match SENTIMENT_CHAIN "Neutral" (lit "a decent chair") = lit "Positive".
Proof. vm_compute. done. Qed.

(** ** Gateway *)

Section GatewayProperties.

Variable E : environment.

(** X5: with the key unset or empty, [get_api_key] raises [ValueError], and
    so does [call_llm], before any request is sent: the world is as it was. *)
Theorem call_llm_credential_missing q w :
  credential_missing E ->
  get_api_key E w = (inl ValueError, w) /\
  call_llm E q w = (inl ValueError, w).
Proof.
  intros [Hk | Hk]; rewrite call_llm_unfold; unfold get_api_key, raise;
    by rewrite Hk.
Qed.

(** X6: a gateway call never touches the database or the clock and sends at
    most one request.  When it returns a text, exactly one request was sent,
    and the text is the content of the answer, or the empty string when the
    answer has no content. *)
Theorem call_llm_effect q w :
  let '(r, w') := call_llm E q w in
  w_db w' = w_db w /\
  w_readings w' = w_readings w /\
  (w_requests w' = w_requests w \/ w_requests w' = S (w_requests w)) /\
  forall text,
    r = inr text ->
    w_requests w' = S (w_requests w) /\
    (chat_completion E (w_requests w) q = inr (Some text) \/
     text = [] /\ chat_completion E (w_requests w) q = inr None).
Proof.
  rewrite call_llm_unfold.
  destruct (OPENAI_API_KEY E) as [[|c cs]|]; cbn [w_db w_readings w_requests];
    try (by split; [| split; [| split; [left |]]]).
  split; [done |]. split; [done |]. split; [by right |].
  intros text Heq.
  destruct (chat_completion E (w_requests w) q) as [e|[content|]];
    try done; injection Heq as <-; split; auto.
Qed.

End GatewayProperties.

Lemma call_llm_credential_missing_witness :
  let E := Environment (Some []) (chat_completion example_env)
             (datetime_now example_env) ascii_lower in
  credential_missing E /\
  call_llm E example_query example_world = (inl ValueError, example_world).
Proof.
  intros E0.
  assert (Hm : credential_missing E0) by (by right).
  split; [exact Hm |].
  exact (proj2 (call_llm_credential_missing E0 example_query example_world Hm)).
Defined.

(** ** The daily job: every environment *)

Lemma runner_row_more_lookups lower id ts q text :
  row_id (runner_row lower id ts q text) = id /\
  runner_row lower id ts q text !! "timestamp" = Some (VDateTime ts) /\
  runner_row lower id ts q text !! "whoppah_mentioned" =
    Some (VBool (analyze_response lower text).1.1) /\
  runner_row lower id ts q text !! "context_category" =
    Some (VText (analyze_response lower text).1.2) /\
  runner_row lower id ts q text !! "sentiment" =
    Some (VText (analyze_response lower text).2).
Proof.
  unfold runner_row, row_id.
  by destruct (analyze_response lower text) as [[? ?] ?].
Qed.

Lemma foldr_max_ge (l : list Z) n x :
  x ∈ n :: l -> (x <= foldr Z.max n l)%Z.
Proof.
  induction l as [|y l IH].
  - intros [-> | Hx]%elem_of_cons; simpl; [lia | by apply elem_of_nil in Hx].
  - intros [-> | [-> | Hx]%elem_of_cons]%elem_of_cons; simpl.
    + assert (n ∈ n :: l) as Hn%IH by (apply elem_of_cons; by left). lia.
    + lia.
    + assert (x ∈ n :: l) as Hn%IH by (apply elem_of_cons; by right). lia.
Qed.

Lemma foldr_max_le (l : list Z) n b :
  Forall (fun x => (x <= b)%Z) (n :: l) -> (foldr Z.max n l <= b)%Z.
Proof.
  intros [Hn Hl]%Forall_cons. induction Hl as [|y l Hy Hl IH]; simpl; lia.
Qed.

(** The next rowid is above every id in the table. *)
Lemma next_id_above t r : r ∈ rows t -> (row_id r < next_id t)%Z.
Proof.
  intros Hr. unfold next_id, max_rowid.
  assert (Hin : row_id r ∈ row_id <$> rows t).
  { apply list_elem_of_fmap. by exists r. }
  destruct (row_id <$> rows t) as [|n ns]; [by apply elem_of_nil in Hin |].
  apply foldr_max_ge in Hin. lia.
Qed.

(** It is at most one more than a bound on the ids in the table. *)
Lemma next_id_le t b :
  (0 <= b)%Z ->
  Forall (fun r => (row_id r <= b)%Z) (rows t) -> (next_id t <= b + 1)%Z.
Proof.
  intros Hb Hall. unfold next_id, max_rowid.
  apply (Forall_fmap row_id (fun x => (x <= b)%Z)) in Hall.
  destruct (row_id <$> rows t) as [|n ns]; [lia |].
  apply foldr_max_le in Hall. lia.
Qed.

Lemma ids_increasing_snoc t r :
  row_id r = next_id t ->
  ids_increasing (rows t) -> ids_increasing (rows t ++ [r]).
Proof.
  intros Hid Hinc. unfold ids_increasing in *.
  rewrite fmap_app. apply StronglySorted_app. split; [| split].
  - intros x1 x2 Hx1 Hx2. cbn in Hx2.
    apply list_elem_of_singleton in Hx2 as ->.
    apply list_elem_of_fmap in Hx1 as (r1 & -> & Hr1).
    rewrite Hid. by apply next_id_above.
  - done.
  - cbn. repeat constructor.
Qed.

Section JobEveryEnvironment.

Variable E : environment.

Lemma run_query_credential_missing q w :
  credential_missing E -> run_query E q w = (inr tt, w).
Proof.
  intros Hm. apply (run_query_skipped E q w w ValueError).
  rewrite call_llm_unfold. by destruct Hm as [-> | ->].
Qed.

Lemma for_each_credential_missing qs w :
  credential_missing E -> for_each qs (run_query E) w = (inr tt, w).
Proof.
  intros Hm. induction qs as [|q qs IH]; [done |].
  cbn [for_each]. unfold bind at 1.
  by rewrite run_query_credential_missing.
Qed.

(** One catalog entry leaves the database as it was or appends one row with
    the next rowid to a table with a current schema. *)
Lemma run_query_step q w :
  w_db (run_query E q w).2 = w_db w \/
  exists t ts text,
    w_db w = Some t /\ schema_current t /\
    w_db (run_query E q w).2 =
      Some (Table (columns t)
              (rows t ++ [runner_row (str_lower E) (next_id t) ts q text])).
Proof.
  destruct (call_llm E q w) as [[e|text] w'] eqn:Hcall.
  - left. rewrite (run_query_skipped _ _ _ _ _ Hcall). cbn [snd].
    rewrite call_llm_unfold in Hcall.
    destruct (OPENAI_API_KEY E) as [[|c cs]|]; by injection Hcall as _ <-.
  - rewrite (run_query_answered _ _ _ _ _ Hcall).
    assert (Hdb : w_db w' = w_db w).
    { rewrite call_llm_unfold in Hcall.
      destruct (OPENAI_API_KEY E) as [[|c cs]|]; by injection Hcall as _ <-. }
    rewrite Hdb. destruct (w_db w) as [t|] eqn:Ht; cbn [snd w_db]; [| by left].
    destruct (has_columns QueryResult.mapped_columns t) eqn:Hs;
      cbn [snd w_db]; [| by left].
    right. by exists t, (datetime_now E (w_readings w')), text.
Qed.

(** A property of the database that holds with room for as many rows as
    there are catalog entries left: one entry uses up at most one. *)
Lemma for_each_counted_invariant (P : nat -> database -> Prop) :
  (forall k q w, P (S k) (w_db w) -> P k (w_db (run_query E q w).2)) ->
  (forall k db, P (S k) db -> P k db) ->
  forall qs w,
    P (length qs) (w_db w) -> P 0 (w_db (for_each qs (run_query E) w).2).
Proof.
  intros Hstep Hmono.
  assert (Hzero : forall k db, P k db -> P 0 db).
  { intros k db. induction k as [|k IH]; [done |]. intros H.
    by apply IH, Hmono. }
  intros qs. induction qs as [|q qs IH]; intros w Hw; [done |].
  cbn [for_each length] in *. unfold bind at 1.
  specialize (Hstep (length qs) q w Hw).
  destruct (run_query E q w) as [[e|[]] w1]; cbn [snd] in *.
  - by apply (Hzero (length qs)).
  - by apply IH.
Qed.

(** A property of the database that one catalog entry keeps is kept by the
    whole loop, also when the loop is left by an exception. *)
Lemma for_each_invariant (P : database -> Prop) :
  (forall q w, P (w_db w) -> P (w_db (run_query E q w).2)) ->
  forall qs w, P (w_db w) -> P (w_db (for_each qs (run_query E) w).2).
Proof.
  intros Hstep qs. induction qs as [|q qs IH]; intros w Hw; [done |].
  cbn [for_each]. unfold bind at 1. specialize (Hstep q w Hw).
  destruct (run_query E q w) as [[e|[]] w1]; cbn [snd] in *; [done |].
  by apply IH.
Qed.

(** With a credential and a current schema the loop writes [pass_rows]. *)
Lemma for_each_pass qs :
  credential_configured E ->
  forall w t,
    w_db w = Some t -> schema_current t ->
    for_each qs (run_query E) w =
    (inr tt,
     World
       (Some (Table (columns t)
                (rows t ++ pass_rows E (w_requests w) (w_readings w) t qs)))
       (w_requests w + length qs)
       (w_readings w + length (pass_rows E (w_requests w) (w_readings w) t qs))).
Proof.
  intros (c0 & cs0 & Hkey).
  induction qs as [|q qs IH]; intros w t Hw Hs.
  - destruct w as [db n m], t as [cols rs]; simpl in *. subst db.
    unfold ret. by rewrite app_nil_r, !Nat.add_0_r.
  - cbn [for_each pass_rows length]. unfold bind at 1.
    pose proof (call_llm_unfold E q w) as Hcall. rewrite Hkey in Hcall.
    destruct (chat_completion E (w_requests w) q) as [e|content] eqn:Hq.
    + rewrite (run_query_skipped E _ _ _ _ Hcall).
      rewrite (IH (World (w_db w) (S (w_requests w)) (w_readings w)) t Hw Hs).
      cbn [w_requests w_readings]. by rewrite <- Nat.add_succ_comm.
    + rewrite (run_query_answered E _ _ _ _ Hcall). cbn [w_db].
      rewrite Hw. unfold schema_current in Hs. rewrite Hs.
      cbn [w_requests w_readings].
      set (r := runner_row _ _ _ _ _).
      rewrite (IH (World (Some (Table (columns t) (rows t ++ [r])))
                     (S (w_requests w)) (S (w_readings w)))
                 (Table (columns t) (rows t ++ [r])) eq_refl Hs).
      cbn [w_requests w_readings columns rows length].
      by rewrite <- app_assoc, <- !Nat.add_succ_comm.
Qed.


Lemma pass_rows_timestamps k m t qs :
  (fun r => r !! "timestamp") <$> pass_rows E k m t qs =
  (fun i => Some (VDateTime (datetime_now E i)))
    <$> seq m (length (pass_rows E k m t qs)).
Proof.
  revert k m t. induction qs as [|q qs IH]; intros k m t; simpl; [done |].
  destruct (chat_completion E k q) as [e|content]; [apply IH |].
  cbn [length seq]. rewrite !fmap_cons, IH.
  by destruct (runner_row_more_lookups (str_lower E) (next_id t)
                 (datetime_now E m) q (default [] content))
    as (_ & -> & _).
Qed.

End JobEveryEnvironment.

Section JobTheorems.

Variable E : environment.

(** X7: with the key unset or empty a pass sends no request, takes no clock
    reading, writes nothing and ends normally: the world is as it was, also
    when the database has no table. *)
Theorem run_queries_credential_missing w :
  credential_missing E -> run_queries E w = (inr tt, w).
Proof. intros Hm. unfold run_queries. by apply for_each_credential_missing. Qed.



(** X9: the rows of a pass are stamped with consecutive clock readings, in
    the order in which they are written: the first with the reading that was
    next when the pass began. *)
Theorem run_queries_timestamps w t :
  w_db w = Some t ->
  schema_current t ->
  exists new,
    rows_of (w_db (run_queries E w).2) = rows t ++ new /\
    (fun r => r !! "timestamp") <$> new =
    (fun i => Some (VDateTime (datetime_now E i)))
      <$> seq (w_readings w) (length new).
Proof.
  intros Hw Hs. unfold run_queries.
  destruct (OPENAI_API_KEY E) as [[|c cs]|] eqn:Hkey.
  - exists []. rewrite for_each_credential_missing by (by right).
    cbn [snd]. by rewrite Hw, app_nil_r.
  - assert (Hc : credential_configured E) by (by exists c, cs).
    rewrite (for_each_pass E QUERIES Hc w t Hw Hs).
    eexists. split; [done |]. apply pass_rows_timestamps.
  - exists []. rewrite for_each_credential_missing by (by left).
    cbn [snd]. by rewrite Hw, app_nil_r.
Qed.

(** X10: a pass keeps the ids strictly increasing along the table, whatever
    the environment and however the pass ends, on a table whose ids leave
    room for the 45 rows of a pass below the largest rowid of the database;
    the ids stay within that bound. *)
Theorem run_queries_ids_increasing w :
  ids_increasing (rows_of (w_db w)) ->
  Forall (fun r => (row_id r + 45 <= INT64_MAX)%Z) (rows_of (w_db w)) ->
  ids_increasing (rows_of (w_db (run_queries E w).2)) /\
  Forall (fun r => (row_id r <= INT64_MAX)%Z)
    (rows_of (w_db (run_queries E w).2)).
Proof.
  intros Hinc Hroom. unfold run_queries.
  pose (P := fun (k : nat) (db : database) =>
               (Z.of_nat k <= 45)%Z /\
               ids_increasing (rows_of db) /\
               Forall (fun r => (row_id r + Z.of_nat k <= INT64_MAX)%Z)
                 (rows_of db)).
  assert (HP : P 0 (w_db (for_each QUERIES (run_query E) w).2)).
  { apply (for_each_counted_invariant E P).
    - intros k q w1 (Hk & Hinc1 & Hroom1).
      destruct (run_query_step E q w1)
        as [-> | (t & ts & text & Hw & _ & ->)].
      + split; [lia |]. split; [done |].
        eapply Forall_impl; [exact Hroom1 |]. cbn beta. intros r Hr. lia.
      + rewrite Hw in Hinc1, Hroom1. cbn [rows_of rows] in *.
        assert (Hid : row_id (runner_row (str_lower E) (next_id t) ts q text)
                      = next_id t) by apply runner_row_more_lookups.
        split; [lia |]. split; [by apply ids_increasing_snoc |].
        apply Forall_app. split.
        * eapply Forall_impl; [exact Hroom1 |]. cbn beta. intros r Hr. lia.
        * apply Forall_singleton. rewrite Hid.
          assert (Hle : (next_id t
                         <= (INT64_MAX - Z.of_nat (S k)) + 1)%Z).
          { apply next_id_le; [unfold INT64_MAX; lia |].
            eapply Forall_impl; [exact Hroom1 |]. cbn beta. intros r Hr.
            lia. }
          lia.
    - intros k db (Hk & Hinc1 & Hroom1). split; [lia |]. split; [done |].
      eapply Forall_impl; [exact Hroom1 |]. cbn beta. intros r Hr. lia.
    - split; [vm_compute; discriminate |]. split; [done |].
      exact Hroom. }
  destruct HP as (_ & Hinc' & Hroom'). split; [exact Hinc' |].
  eapply Forall_impl; [exact Hroom' |]. cbn beta. intros r Hr. lia.
Qed.

(** X11: a pass never creates the table and never changes its columns. *)
Theorem run_queries_schema_untouched w :
  table_info (w_db (run_queries E w).2) = table_info (w_db w) /\
  (w_db w = None -> w_db (run_queries E w).2 = None).
Proof.
  unfold run_queries.
  apply (for_each_invariant E
           (fun db => table_info db = table_info (w_db w) /\
                      (w_db w = None -> db = None))); [| done].
  intros q w1 [Hcols Hnone].
  destruct (run_query_step E q w1) as [-> | (t & ts & text & Hw1 & _ & ->)];
    [done |].
  rewrite Hw1 in Hcols, Hnone. split; [exact Hcols |].
  intros H0. by specialize (Hnone H0).
Qed.

(** X12: in every row a pass writes, a false mention flag comes with the
    context General and the sentiment Neutral. *)
Theorem run_queries_unmentioned_defaults w :
  exists new,
    rows_of (w_db (run_queries E w).2) = rows_of (w_db w) ++ new /\
    Forall (fun r => r !! "whoppah_mentioned" = Some (VBool false) ->
                     r !! "context_category" = Some (VText (lit "General")) /\
                     r !! "sentiment" = Some (VText (lit "Neutral"))) new.
Proof.
  destruct (for_each_rows E QUERIES w) as (new & Hrows & Hall).
  exists new. split; [exact Hrows |].
  eapply Forall_impl; [exact Hall |].
  intros r (id & ts & q & text & ->).
  destruct (runner_row_more_lookups (str_lower E) id ts q text)
    as (_ & _ & -> & -> & ->).
  intros Hm. injection Hm as Hm.
  change (str_in (lit "whoppah") (str_lower E text) = false) in Hm.
  by rewrite (analyze_response_defaults _ _ Hm).
Qed.

End JobTheorems.

Lemma run_queries_credential_missing_witness :
  let E := Environment None (chat_completion example_env)
             (datetime_now example_env) ascii_lower in
  credential_missing E /\
  run_queries E example_world = (inr tt, example_world).
Proof.
  intros E0. assert (Hm : credential_missing E0) by (by left).
  split; [exact Hm | exact (run_queries_credential_missing E0 _ Hm)].
Defined.


Lemma run_queries_timestamps_witness :
  exists new,
    rows_of (w_db (run_queries example_env example_world).2) = [] ++ new /\
    (fun r => r !! "timestamp") <$> new =
    (fun i => Some (VDateTime (datetime_now example_env i)))
      <$> seq 0 (length new).
Proof.
  apply (run_queries_timestamps example_env example_world
           (Table QueryResult.mapped_columns [])); reflexivity.
Defined.

Lemma run_queries_ids_increasing_witness :
  let w := World (Some example_table) 0 0 in
  ids_increasing (rows_of (w_db w)) /\
  Forall (fun r => (row_id r + 45 <= INT64_MAX)%Z) (rows_of (w_db w)) /\
  ids_increasing (rows_of (w_db (run_queries example_env w).2)) /\
  Forall (fun r => (row_id r <= INT64_MAX)%Z)
    (rows_of (w_db (run_queries example_env w).2)).
Proof.
  intros w.
  assert (H0 : ids_increasing (rows_of (w_db w))).
  { unfold ids_increasing. apply (bool_decide_unpack _). by vm_compute. }
  assert (H1 : Forall (fun r => (row_id r + 45 <= INT64_MAX)%Z)
                 (rows_of (w_db w))).
  { apply (bool_decide_unpack _). by vm_compute. }
  split; [exact H0 |]. split; [exact H1 |].
  exact (run_queries_ids_increasing example_env w H0 H1).
Defined.

(** The ids of the example pass. *)
Example run_queries_example_ids :
  row_id <$> rows_of (w_db (run_queries example_env example_world).2)
  = Z.of_nat <$> seq 1 44.
Proof. vm_compute. reflexivity. Qed.

(** ** The daily job against a database without table *)

Lemma failures_le E k qs : failures E k qs <= length qs.
Proof. rewrite <- (answered_failures E k qs). apply Nat.le_add_l. Qed.

Lemma for_each_without_table E qs :
  credential_configured E ->
  forall w,
    w_db w = None ->
    w_db (for_each qs (run_query E) w).2 = None /\
    ((for_each qs (run_query E) w).1 = inr tt <->
     failures E (w_requests w) qs = length qs) /\
    ((for_each qs (run_query E) w).1 = inr tt \/
     (for_each qs (run_query E) w).1 = inl OperationalError).
Proof.
  intros (c0 & cs0 & Hkey).
  induction qs as [|q qs IH]; intros w Hw.
  - cbn. repeat split; auto.
  - cbn [for_each failures length]. unfold bind.
    pose proof (call_llm_unfold E q w) as Hcall. rewrite Hkey in Hcall.
    destruct (chat_completion E (w_requests w) q) as [e|content] eqn:Hq.
    + rewrite (run_query_skipped E _ _ _ _ Hcall).
      destruct (IH (World (w_db w) (S (w_requests w)) (w_readings w)) Hw)
        as (Hdb & Hiff & Hor).
      cbn [w_requests] in Hiff. split; [exact Hdb |]. split; [| exact Hor].
      rewrite Hiff. split; intros H; lia.
    + rewrite (run_query_answered E _ _ _ _ Hcall). cbn [w_db]. rewrite Hw.
      cbn [fst snd w_db]. split; [done |]. split; [| by right].
      pose proof (failures_le E (S (w_requests w)) qs).
      split; [done | lia].
Qed.

(** X13: against a database without table a pass creates nothing: it ends
    normally only when every request raises, and otherwise the first answered
    query raises [OperationalError] out of the pass. *)
Theorem run_queries_without_table E w :
  credential_configured E ->
  w_db w = None ->
  w_db (run_queries E w).2 = None /\
  ((run_queries E w).1 = inr tt <->
   failures E (w_requests w) QUERIES = 45) /\
  ((run_queries E w).1 = inr tt \/
   (run_queries E w).1 = inl OperationalError).
Proof.
  intros Hc Hw. exact (for_each_without_table E QUERIES Hc w Hw).
Qed.

Lemma run_queries_without_table_witness :
  w_db (run_queries example_env (World None 0 0)).2 = None /\
  ((run_queries example_env (World None 0 0)).1 = inr tt <->
   failures example_env 0 QUERIES = 45) /\
  ((run_queries example_env (World None 0 0)).1 = inr tt \/
   (run_queries example_env (World None 0 0)).1 = inl OperationalError).
Proof.
  apply (run_queries_without_table example_env (World None 0 0)).
  - exists 115%N, (lit "k-example"). reflexivity.
  - reflexivity.
Defined.

(** ** Appending to the store *)


(** X15: a successful [add_result] appends exactly one row and leaves the
    columns and the existing rows as they were.  On a table whose ids are
    below the largest rowid of the database the new row gets an id above
    every id in the table and within that bound (1 in an empty table), so ids
    that grow along the table keep growing. *)
Theorem add_result_appends_fresh_id
    (timestamp : py_datetime) (query : str)
    (whoppah_mentioned chairish_mentioned : bool)
    (sentiment excerpt full_response context_category : str)
    (db db' : database) :
  Forall (fun r => (row_id r < INT64_MAX)%Z) (rows_of db) ->
  add_result timestamp query whoppah_mentioned chairish_mentioned
    sentiment excerpt full_response context_category db = inr db' ->
  exists t r,
    db = Some t /\
    db' = Some (Table (columns t) (rows t ++ [r])) /\
    (forall r0, r0 ∈ rows t -> (row_id r0 < row_id r)%Z) /\
    (row_id r <= INT64_MAX)%Z /\
    (rows t = [] -> row_id r = 1%Z) /\
    (ids_increasing (rows t) -> ids_increasing (rows t ++ [r])).
Proof.
  unfold add_result, session_add. destruct db as [t|]; [| done].
  destruct (has_columns QueryResult.mapped_columns t); [| done].
  intros Hbound Heq. injection Heq as <-.
  set (r := <["id" := VInt (next_id t)]> (QueryResult.insert_values _)).
  assert (Hid : row_id r = next_id t) by reflexivity.
  exists t, r. split; [done |]. split; [done |].
  split; [| split; [| split]].
  - intros r0 Hr0. rewrite Hid. by apply next_id_above.
  - rewrite Hid.
    assert (Hle : (next_id t <= (INT64_MAX - 1) + 1)%Z).
    { apply next_id_le; [unfold INT64_MAX; lia |].
      eapply Forall_impl; [exact Hbound |]. cbn beta. intros r0 Hr0. lia. }
    lia.
  - intros Hnil. rewrite Hid. unfold next_id, max_rowid. by rewrite Hnil.
  - by apply ids_increasing_snoc.
Qed.

Lemma add_result_appends_fresh_id_witness :
  Forall (fun r => (row_id r < INT64_MAX)%Z) (rows_of (Some example_table)) /\
  exists t r,
    Some example_table = Some t /\
    Some (Table (columns example_table)
            (rows example_table ++
               [<["id" := VInt 4]>
                  (QueryResult.insert_values
                     (QueryResult.new
                        (PyDateTime (DateTime (Date 2024 2 1) time_min)
                           (Some T_ZONE))
                        example_query true false (lit "General")
                        (lit "Neutral") (lit "Whoppah") (lit "Whoppah")))]))
    = Some (Table (columns t) (rows t ++ [r])) /\
    (forall r0, r0 ∈ rows t -> (row_id r0 < row_id r)%Z) /\
    (row_id r <= INT64_MAX)%Z /\
    (rows t = [] -> row_id r = 1%Z) /\
    (ids_increasing (rows t) -> ids_increasing (rows t ++ [r])).
Proof.
  assert (Hb : Forall (fun r => (row_id r < INT64_MAX)%Z)
                 (rows_of (Some example_table))).
  { apply (bool_decide_unpack _). by vm_compute. }
  split; [exact Hb |].
  apply (add_result_appends_fresh_id
           (PyDateTime (DateTime (Date 2024 2 1) time_min) (Some T_ZONE))
           example_query true false (lit "Neutral") (lit "Whoppah")
           (lit "Whoppah") (lit "General") (Some example_table) _ Hb).
  reflexivity.
Defined.

(** ** Initialisation, then use *)

(** A table of the schema before [context_category]: every other mapped
    column is there. *)
Lemma init_db_schema_current db :
  (forall c, c ∈ QueryResult.mapped_columns -> c <> "context_category" ->
             c ∈ table_info db) \/ db = None ->
  exists t', init_db db = Some t' /\ schema_current t'.
Proof.
  intros [Hcols | ->]; [| by eexists].
  destruct db as [t|].
  - destruct (has_column "context_category" t) eqn:Hc.
    + rewrite init_db_kept by done. exists t. split; [done |].
      apply has_columns_spec. intros c Hin.
      destruct (decide (c = "context_category")) as [-> | Hne]; [done |].
      by apply has_column_elem, Hcols.
    + rewrite init_db_missing by done. eexists. split; [done |].
      apply has_columns_elem. intros c Hin. cbn [columns].
      apply elem_of_app.
      destruct (decide (c = "context_category")) as [-> | Hne].
      * right. by apply list_elem_of_singleton.
      * left. by apply Hcols.
  - by eexists.
Qed.



(** ** Range query: edges *)

Lemma filter_none {A} (f : A -> bool) (l : list A) :
  (forall x, x ∈ l -> f x = false) -> List.filter f l = [].
Proof.
  induction l as [|x l IH]; intros H; simpl; [done |].
  rewrite (H x) by (apply elem_of_cons; by left).
  apply IH. intros y Hy. apply H. apply elem_of_cons. by right.
Qed.


Lemma in_window_unbounded r : in_window time_max None None r = true.
Proof. reflexivity. Qed.

Lemma valid_time_max : valid_time time_max.
Proof. unfold valid_time, time_max; simpl; lia. Qed.

(** A window whose start date is after its end date holds no timestamp. *)
Lemma in_window_reversed s e r :
  date_leb s e = false -> in_window time_max (Some s) (Some e) r = false.
Proof.
  intros Hse. unfold in_window, timestamp_ge, timestamp_le.
  destruct (row_timestamp r) as [d|]; [| done].
  apply not_true_is_false. intros [H1 H2]%andb_true_iff.
  pose proof (lex_leb_trans _ _ _ H1 H2) as H.
  change (datetime_leb (combine s time_min) (combine e time_max) = true) in H.
  rewrite datetime_leb_combine_min in H by apply valid_time_max.
  cbn [dt_date combine] in H. congruence.
Qed.




(** X18: a range whose start date is after its end date returns no rows. *)
Theorem get_results_reversed_bounds t s e :
  schema_current t ->
  date_leb s e = false ->
  exists df,
    get_results (Some s) (Some e) (Some t) = inr df /\
    df_records df = [].
Proof.
  intros Hs Hse. eexists. split; [by apply get_results_window |].
  unfold read_sql; cbn [df_records]. rewrite filter_none; [done |].
  intros r _. by apply in_window_reversed.
Qed.

(** X19: a record whose date lies outside the bounds does not show in the
    range: the query returns after the insert what it returned before. *)
Theorem add_result_outside_range
    (t : table) (timestamp : py_datetime) (query : str)
    (whoppah_mentioned chairish_mentioned : bool)
    (sentiment excerpt full_response context_category : str)
    (start end_ : option date) :
  schema_current t ->
  valid_time (dt_time (wall_clock timestamp)) ->
  spans start end_ (wall_clock timestamp) = false ->
  exists db',
    add_result timestamp query whoppah_mentioned chairish_mentioned
      sentiment excerpt full_response context_category (Some t) = inr db' /\
    get_results start end_ db' = get_results start end_ (Some t).
Proof.
  intros Hs Hv Hspan. unfold add_result, session_add.
  pose proof Hs as Hs'. unfold schema_current in Hs'. rewrite Hs'.
  set (r := <["id" := VInt (next_id t)]> (QueryResult.insert_values _)).
  eexists. split; [done |].
  rewrite !get_results_window by done. cbn [rows].
  rewrite List.filter_app. cbn [List.filter].
  rewrite (in_window_spans start end_ r (wall_clock timestamp)) by done.
  by rewrite Hspan, app_nil_r.
Qed.

(** X20: on a table of the schema without [context_category] (no column of
    that name, up to case) the range query raises the error of the frame
    reader; after [init_db] it returns every row, each with the context
    General. *)
Theorem get_results_after_migration t start end_ :
  has_column "context_category" t = false ->
  (forall c, c ∈ QueryResult.mapped_columns -> c <> "context_category" ->
             c ∈ columns t) ->
  get_results start end_ (Some t) = inl DatabaseError /\
  exists df,
    get_results None None (init_db (Some t)) = inr df /\
    length (df_records df) = length (rows t) /\
    Forall (fun r => r !! "context_category" = Some (VText (lit "General")))
      (df_records df).
Proof.
  intros Hc Hcols. split.
  - unfold get_results.
    destruct (has_columns QueryResult.mapped_columns t) eqn:Hs; [| done].
    rewrite (proj1 (has_columns_spec _ _) Hs) in Hc; [done |].
    apply list_elem_of_In. simpl. tauto.
  - destruct (init_db_schema_current (Some t) (or_introl Hcols))
      as (t' & Ht' & Hs).
    rewrite Ht', get_results_window by done. eexists. split; [done |].
    unfold read_sql; cbn [df_records constrained scan].
    rewrite (List.filter_ext _ (fun _ => true) in_window_unbounded), filter_all.
    rewrite init_db_missing in Ht' by done. injection Ht' as <-.
    cbn [rows]. rewrite !length_fmap. split; [done |].
    rewrite <- list_fmap_compose. apply Forall_fmap, Forall_true.
    intros r. cbn. rewrite project_lookup_in.
    + apply lookup_insert_eq.
    + apply list_elem_of_In. simpl. tauto.
Qed.


(** On the example table the bounded query returns the three rows in the
    order of the index. *)
Example get_results_index_order :
  match get_results (Some (Date 2024 1 30)) None (Some example_table) with
  | inr df => row_id <$> df_records df
  | inl _ => []
  end = [1; 3; 2]%Z.
Proof. vm_compute. reflexivity. Qed.

Lemma get_results_reversed_bounds_witness :
  exists df,
    get_results (Some (Date 2024 1 31)) (Some (Date 2024 1 30))
      (Some example_table) = inr df /\
    df_records df = [].
Proof. apply get_results_reversed_bounds; reflexivity. Defined.

Lemma add_result_outside_range_witness :
  exists db',
    add_result (PyDateTime (DateTime (Date 2024 2 1) time_min) (Some T_ZONE))
      example_query true false
      (lit "Neutral") (lit "Whoppah") (lit "Whoppah") (lit "General")
      (Some example_table) = inr db' /\
    get_results (Some (Date 2024 1 1)) (Some (Date 2024 1 31)) db' =
    get_results (Some (Date 2024 1 1)) (Some (Date 2024 1 31))
      (Some example_table).
Proof.
  apply add_result_outside_range.
  - reflexivity.
  - apply valid_time_max || (unfold valid_time; simpl; lia).
  - reflexivity.
Defined.

Lemma get_results_after_migration_witness :
  get_results None None (Some legacy_table) = inl DatabaseError /\
  exists df,
    get_results None None (init_db (Some legacy_table)) = inr df /\
    length (df_records df) = length (rows legacy_table) /\
    Forall (fun r => r !! "context_category" = Some (VText (lit "General")))
      (df_records df).
Proof.
  apply get_results_after_migration.
  - apply (bool_decide_unpack _). by vm_compute.
  - intros c Hc Hne.
    repeat (apply elem_of_cons in Hc as [-> | Hc];
            [first [by apply (bool_decide_unpack _); vm_compute | done] |]).
    by apply elem_of_nil in Hc.
Defined.

(** ** Latest rows: edges *)

Lemma order_by_timestamp_desc_length rs :
  length (order_by_timestamp_desc rs) = length rs.
Proof.
  apply Permutation_length, order_by_timestamp_desc_Permutation.
Qed.

(** X21: for a limit that the database takes, [get_latest_excerpts] returns
    as many rows as the limit allows: none for limit 0, the whole table for a
    limit at or above its size, and the whole table also for a negative
    limit.  For any other limit the driver raises [OverflowError]. *)
Theorem get_latest_excerpts_count limit t :
  schema_current t ->
  ((- INT64_MAX - 1 <= limit <= INT64_MAX)%Z ->
   exists df,
     get_latest_excerpts limit (Some t) = inr df /\
     length (df_records df) =
       if (limit <? 0)%Z then length (rows t)
       else Nat.min (Z.to_nat limit) (length (rows t))) /\
  (~ (- INT64_MAX - 1 <= limit <= INT64_MAX)%Z ->
   get_latest_excerpts limit (Some t) = inl OverflowError).
Proof.
  intros Hs. split.
  - intros Hl. eexists. split; [by apply get_latest_excerpts_frame |].
    unfold read_sql, sql_limit; cbn [df_records]. rewrite length_fmap.
    destruct (limit <? 0)%Z.
    + apply order_by_timestamp_desc_length.
    + by rewrite length_take, order_by_timestamp_desc_length.
  - intros Hl. unfold get_latest_excerpts.
    rewrite (schema_current_latest t Hs).
    destruct (fits_int64 limit) eqn:Hfit; [| done].
    by apply fits_int64_spec in Hfit.
Qed.

Lemma get_latest_excerpts_count_witness :
  schema_current example_table /\
  (exists df,
      get_latest_excerpts 2 (Some example_table) = inr df /\
      length (df_records df) = 2) /\
  (exists df,
      get_latest_excerpts (-1) (Some example_table) = inr df /\
      length (df_records df) = 3) /\
  get_latest_excerpts (INT64_MAX + 1) (Some example_table)
  = inl OverflowError.
Proof.
  assert (Hs : schema_current example_table) by reflexivity.
  split; [exact Hs |].
  split; [| split].
  - apply (get_latest_excerpts_count 2 example_table Hs).
    unfold INT64_MAX. lia.
  - apply (get_latest_excerpts_count (-1) example_table Hs).
    unfold INT64_MAX. lia.
  - apply (get_latest_excerpts_count (INT64_MAX + 1) example_table Hs).
    unfold INT64_MAX. lia.
Defined.




(** ** The scheduler singleton *)

(** X23: [get_scheduler] never raises and makes the global hold the
    scheduler it returns; a further call returns that same scheduler and
    changes nothing.  The scheduler created on the first call runs, in the
    zone Europe/Amsterdam, with the single job daily-whoppah-run at 09:00. *)
Theorem get_scheduler_singleton (g : option BackgroundScheduler) :
  exists s,
    get_scheduler g = Some (s, Some s) /\
    get_scheduler (Some s) = Some (s, Some s) /\
    (forall s0, g = Some s0 -> s = s0) /\
    (g = None ->
     sched_running s = true /\
     sched_timezone s = "Europe/Amsterdam" /\
     sched_jobs s =
       {[ "daily-whoppah-run" :=
            {| job_target := JobRunQueries;
               job_trigger := {| cron_hour := 9; cron_minute := 0;
                                 cron_timezone := "Europe/Amsterdam" |} |} ]}).
Proof.
  destruct g as [s0|].
  - exists s0. repeat split; try done. by intros ? [= ->].
  - eexists. split; [reflexivity |]. split; [reflexivity |].
    split; [done |]. intros _. repeat split.
Qed.

(** ** The dashboard *)

Lemma replace_day_first_le today :
  (1 <= day today)%Z -> date_leb (replace_day today 1) today = true.
Proof.
  intros Hd. unfold date_leb, lex_leb, date_key, replace_day.
  cbn [lex_compare year month day]. rewrite !Z.compare_refl.
  destruct (Z.compare_spec 1 (day today)); try done. lia.
Qed.

(** X24: the date range selector returns the two dates of a full range as
    they are, and otherwise a range of one day: the date itself for a single
    date, and today (not the date picked) for a tuple that is empty or holds
    only the start date.  The default range it offers starts on the first of
    today's month and is in order. *)
Theorem date_range_selector_cases today date_input :
  let default_range := (replace_day today 1, today) in
  let '(start_date, end_date) := date_range_selector today date_input in
  (forall a b, date_input default_range = InputTuple [a; b] ->
               start_date = a /\ end_date = b) /\
  (forall d, date_input default_range = InputDate d ->
             start_date = d /\ end_date = d) /\
  (forall ds, date_input default_range = InputTuple ds -> length ds <> 2 ->
              start_date = today /\ end_date = today) /\
  ((1 <= day today)%Z -> date_leb (replace_day today 1) today = true).
Proof.
  cbn zeta. unfold date_range_selector.
  pose proof (replace_day_first_le today) as Hord.
  destruct (date_input (replace_day today 1, today)) as [d | ds].
  - split; [done |]. split; [by intros ? [= <-] |]. by split.
  - destruct ds as [|a [|b [|c ds]]];
      (split; [try done; by intros ? ? [= <- <-] |]);
      (split; [done |]); (split; [| done]);
      intros ds' [= <-] Hlen; cbn in Hlen; done.
Qed.

Lemma filter_length_le' {A} (f : A -> bool) (l : list A) :
  length (List.filter f l) <= length l.
Proof.
  induction l as [|x l IH]; simpl; [done |]. destruct (f x); simpl; lia.
Qed.

(** X25: on a frame that has the mention and sentiment columns the metrics
    block never raises, so it never divides by zero.  It shows nothing for an
    empty frame; otherwise the total is the number of rows whose mention flag
    is true, and each rate it computes has a positive denominator and a
    numerator that is not above it. *)
Theorem display_charts_metrics_safe (df : DataFrame) :
  "whoppah_mentioned" ∈ df_columns df ->
  "sentiment" ∈ df_columns df ->
  exists m,
    display_charts_metrics df = Some m /\
    (m = None <-> df_empty df = true) /\
    forall mt,
      m = Some mt ->
      select_true "whoppah_mentioned" df
        = Some (List.filter (fun r => equals_true (r !! "whoppah_mentioned"))
                  (df_records df)) /\
      total_whoppah_mentions mt =
        length (List.filter (fun r => equals_true (r !! "whoppah_mentioned"))
                  (df_records df)) /\
      (total_whoppah_mentions mt <= length (df_records df)) /\
      (forall r, mention_rate mt = Some r ->
                 numerator r = total_whoppah_mentions mt /\
                 denominator r = length (df_records df) /\
                 numerator r <= denominator r /\ 0 < denominator r) /\
      (forall r, positive_sentiment_rate mt = Some r ->
                 denominator r = total_whoppah_mentions mt /\
                 numerator r <= denominator r /\ 0 < denominator r).
Proof.
  intros Hm Hsent. unfold display_charts_metrics, select_true.
  rewrite (bool_decide_eq_true_2 _ Hm), (bool_decide_eq_true_2 _ Hsent).
  destruct (df_empty df) eqn:Hempty.
  { exists None. split; [done |]. split; [done |]. by intros mt [=]. }
  pose proof (filter_length_le'
                (fun r => equals_true (r !! "whoppah_mentioned"))
                (df_records df)) as Hle.
  destruct (List.filter _ (df_records df)) as [|r0 rs] eqn:Hrows.
  { eexists. split; [done |]. split; [done |].
    intros mt [= <-]. cbn. repeat split; try done; lia. }
  set (positive := List.filter _ (r0 :: rs)).
  assert (Hpos : length positive <= length (r0 :: rs))
    by apply filter_length_le'.
  destruct (df_records df) as [|r1 rs1] eqn:Hrec; [cbn in Hle; lia |].
  cbn [true_divide length]. eexists. split; [done |]. split; [done |].
  intros mt [= <-]. cbn [total_whoppah_mentions mention_rate
                          positive_sentiment_rate length] in *.
  split; [done |]. split; [done |]. split; [done |].
  split; intros r [= <-]; cbn [numerator denominator]; repeat split; lia.
Qed.

Lemma display_charts_metrics_safe_witness :
  let df := read_sql QueryResult.mapped_columns (rows example_table) in
  exists m, display_charts_metrics df = Some m /\
            (m = None <-> df_empty df = true).
Proof.
  intros df.
  assert (H1 : "whoppah_mentioned" ∈ df_columns df).
  { apply (bool_decide_unpack _). by vm_compute. }
  assert (H2 : "sentiment" ∈ df_columns df).
  { apply (bool_decide_unpack _). by vm_compute. }
  destruct (display_charts_metrics_safe df H1 H2) as (m & Hm & Hnone & _).
  exists m. split; [exact Hm | exact Hnone].
Defined.

(** The metrics of the example table: two mentions among three rows, one of
    them positive. *)
Example display_charts_metrics_example :
  display_charts_metrics
    (read_sql QueryResult.mapped_columns (rows example_table))
  = Some (Some (Metrics 2 (Some (Ratio 2 3)) (Some (Ratio 1 2)))).
Proof. vm_compute. reflexivity. Qed.

Lemma sql_limit_nil limit (rs : list row) :
  sql_limit limit rs = [] <-> rs = [] \/ limit = 0%Z.
Proof.
  unfold sql_limit. destruct (Z.ltb_spec limit 0) as [Hneg | Hpos].
  - split; [by left | intros [? | ?]; [done | lia]].
  - split.
    + intros Htake. destruct rs as [|r rs]; [by left |]. right.
      destruct (Z.to_nat limit) eqn:Hn; [lia | done].
    + intros [-> | ->]; [by rewrite take_nil | done].
Qed.

Lemma order_by_timestamp_desc_nil rs :
  order_by_timestamp_desc rs = [] <-> rs = [].
Proof.
  rewrite <- !length_zero_iff_nil.
  by rewrite order_by_timestamp_desc_length.
Qed.

(** X26: for a limit that the database takes, the latest-rows table shows
    the notice when the table is empty or the limit is 0.  Otherwise it shows
    the rows of [get_latest_excerpts], in their order, each with one more
    cell, Has Whoppah, which holds the check mark when the mention flag of
    the row is true and the cross when it is false; the label Has Whoppah
    comes after the labels of that frame. *)
Theorem display_latest_excerpts_view limit t :
  schema_current t ->
  (- INT64_MAX - 1 <= limit <= INT64_MAX)%Z ->
  exists df_latest,
    get_latest_excerpts limit (Some t) = inr df_latest /\
    (rows t = [] \/ limit = 0%Z ->
     display_latest_excerpts limit (Some t) =
     inr (Info "No data available yet. Click 'Run Now' to collect some data!"))
    /\
    (rows t <> [] -> limit <> 0%Z ->
     df_records df_latest <> [] /\
     display_latest_excerpts limit (Some t) =
     inr (Dataframe
            (Frame (df_columns df_latest ++ ["Has Whoppah"])
               ((fun r =>
                   <["Has Whoppah" :=
                       VText (if truthy (r !! "whoppah_mentioned")
                              then CHECK_MARK else CROSS_MARK)]> r)
                  <$> df_records df_latest))) /\
     forall r b,
       r ∈ df_records df_latest ->
       r !! "whoppah_mentioned" = Some (VBool b) ->
       truthy (r !! "whoppah_mentioned") = b).
Proof.
  intros Hs Hl. unfold display_latest_excerpts.
  rewrite (get_latest_excerpts_frame limit t Hs Hl).
  set (latest := sql_limit limit (order_by_timestamp_desc (rows t))).
  assert (Hnil : latest = [] <-> rows t = [] \/ limit = 0%Z).
  { unfold latest. rewrite sql_limit_nil.
    by rewrite order_by_timestamp_desc_nil. }
  eexists. split; [reflexivity |].
  unfold read_sql, df_empty; cbn [df_columns df_records latest_columns].
  split.
  - intros H. apply Hnil in H. by rewrite H.
  - intros Hrows Hlimit.
    destruct latest as [|r0 rs] eqn:Hlatest.
    { destruct (proj1 Hnil eq_refl); done. }
    assert (H1 : bool_decide ("whoppah_mentioned" ∈ latest_columns) = true)
      by reflexivity.
    assert (H2 : bool_decide ("Has Whoppah" ∈ latest_columns) = false)
      by reflexivity.
    split; [done |]. rewrite fmap_cons.
    fold latest_columns. rewrite H1. unfold assign_column.
    cbn [df_columns df_records]. rewrite H2.
    split; [done |].
    intros r b _ Hflag. by rewrite Hflag.
Qed.

Lemma display_latest_excerpts_view_witness :
  schema_current example_table /\
  (- INT64_MAX - 1 <= 2 <= INT64_MAX)%Z /\
  exists df_latest,
    get_latest_excerpts 2 (Some example_table) = inr df_latest /\
    df_records df_latest <> [] /\
    display_latest_excerpts 2 (Some example_table) =
    inr (Dataframe
           (Frame (df_columns df_latest ++ ["Has Whoppah"])
              ((fun r =>
                  <["Has Whoppah" :=
                      VText (if truthy (r !! "whoppah_mentioned")
                             then CHECK_MARK else CROSS_MARK)]> r)
                 <$> df_records df_latest))).
Proof.
  assert (Hs : schema_current example_table) by reflexivity.
  assert (Hl : (- INT64_MAX - 1 <= 2 <= INT64_MAX)%Z)
    by (unfold INT64_MAX; lia).
  split; [exact Hs |]. split; [exact Hl |].
  destruct (display_latest_excerpts_view 2 example_table Hs Hl)
    as (df & Hdf & _ & Hshown).
  destruct Hshown as (Hne & Hview & _); [done | done |].
  exists df. split; [exact Hdf |]. split; [exact Hne | exact Hview].
Defined.

(** The latest row of the example table, as the dashboard shows it. *)
Example display_latest_excerpts_example :
  match display_latest_excerpts 1 (Some example_table) with
  | inr (Dataframe df) =>
      (df_columns df, (fun r => r !! "Has Whoppah") <$> df_records df)
  | _ => ([], [])
  end
  = (latest_columns ++ ["Has Whoppah"], [Some (VText CROSS_MARK)]).
Proof. vm_compute. reflexivity. Qed.

(** ** The charts over the mentions *)

(** The number of rows that hold the value [v] in the column [c]. *)
Lemma groupby_size_lookup c (rs : list row) v :
  groupby_size c rs !! v =
  match length (List.filter (fun r => bool_decide (r !! c = Some v)) rs) with
  | 0 => None
  | S n => Some (S n)
  end.
Proof.
  induction rs as [|r rs IH]; [done |].
  cbn [groupby_size foldr List.filter]. fold (groupby_size c rs).
  destruct (r !! c) as [u|] eqn:Hr.
  - destruct (decide (u = v)) as [-> | Hne].
    + rewrite lookup_insert_eq, bool_decide_eq_true_2 by done.
      cbn [length]. rewrite IH. by destruct (length _).
    + rewrite lookup_insert_ne, bool_decide_eq_false_2 by congruence.
      exact IH.
  - by rewrite bool_decide_eq_false_2.
Qed.

(** X28: the sentiment chart and the context chart are drawn exactly when
    some row has a true mention flag, and otherwise the notice is shown.  A
    bar stands for each label that occurs among the mentions, and its height
    is the number of mentions with that label. *)
Theorem mention_charts_counts (df : DataFrame) :
  "whoppah_mentioned" ∈ df_columns df ->
  "sentiment" ∈ df_columns df ->
  "context_category" ∈ df_columns df ->
  let mentions :=
    List.filter (fun r => equals_true (r !! "whoppah_mentioned"))
      (df_records df) in
  let count c v :=
    length (List.filter (fun r => bool_decide (r !! c = Some v)) mentions) in
  (mentions = [] ->
   _plot_sentiment df = Some None /\
   _plot_context_categories df = Some None) /\
  (mentions <> [] ->
   exists by_sentiment by_context,
     _plot_sentiment df = Some (Some by_sentiment) /\
     _plot_context_categories df = Some (Some by_context) /\
     forall v n,
       (by_sentiment !! v = Some n <-> 0 < n /\ n = count "sentiment" v) /\
       (by_context !! v = Some n <->
        0 < n /\ n = count "context_category" v)).
Proof.
  intros Hm Hs Hc. cbn zeta.
  unfold _plot_sentiment, _plot_context_categories, mention_counts,
    select_true.
  rewrite (bool_decide_eq_true_2 _ Hm), (bool_decide_eq_true_2 _ Hs),
    (bool_decide_eq_true_2 _ Hc).
  destruct (List.filter _ (df_records df)) as [|r rs]; split; try done.
  intros _. eexists _, _. split; [done |]. split; [done |].
  intros v n. rewrite !groupby_size_lookup.
  split;
    (destruct (length (List.filter _ (r :: rs))) as [|k];
     split; [done | intros [? ?]; lia | intros [= <-]; lia
            | by intros [_ ->]]).
Qed.

Lemma mention_charts_counts_witness :
  let df := read_sql QueryResult.mapped_columns (rows example_table) in
  exists by_sentiment,
    _plot_sentiment df = Some (Some by_sentiment) /\
    by_sentiment !! VText (lit "Positive") = Some 1 /\
    by_sentiment !! VText (lit "Neutral") = Some 1 /\
    by_sentiment !! VText (lit "Negative") = None.
Proof.
  intros df.
  assert (H1 : "whoppah_mentioned" ∈ df_columns df)
    by (apply (bool_decide_unpack _); by vm_compute).
  assert (H2 : "sentiment" ∈ df_columns df)
    by (apply (bool_decide_unpack _); by vm_compute).
  assert (H3 : "context_category" ∈ df_columns df)
    by (apply (bool_decide_unpack _); by vm_compute).
  destruct (mention_charts_counts df H1 H2 H3) as [_ Hsome].
  destruct Hsome as (s & c & Hs & _ & Hcount).
  { intros Hnil. apply (f_equal length) in Hnil.
    vm_compute in Hnil. discriminate. }
  exists s. split; [exact Hs |].
  split; [| split].
  - apply (Hcount (VText (lit "Positive")) 1). vm_compute.
    split; [apply le_n | reflexivity].
  - apply (Hcount (VText (lit "Neutral")) 1). vm_compute.
    split; [apply le_n | reflexivity].
  - destruct (s !! VText (lit "Negative")) as [n|] eqn:Hn; [| reflexivity].
    apply (Hcount (VText (lit "Negative")) n) in Hn as [Hpos Hn].
    vm_compute in Hn. rewrite Hn in Hpos.
    destruct (Nat.lt_irrefl 0 Hpos).
Defined.
